(** * Exam Analyzer: extraction, answer key, session, scoring, history

    A shallow embedding of [app.py] and the properties of its core:
    the question extractor, the answer-key parser, the exam session driven by
    the script reruns, the scoring loop and the history store. *)

From Stdlib Require Import ZArith Ascii String Sorted DecimalString.
From stdpp Require Import gmap strings list fin_maps.

Local Open Scope Z_scope.

(** ** Text

    A Python [str] is modelled as a sequence of 8-bit code points
    ([list ascii] while it is scanned, [string] when it is stored). *)

Abbreviation text := (list ascii).

Definition code (c : ascii) : nat := nat_of_ascii c.

(** [\d] on this range: the decimal digits 0-9. *)
Definition is_digit (c : ascii) : bool :=
  (48 <=? code c)%nat && (code c <=? 57)%nat.

(** [str.isspace] on this range, which is also what [\s] accepts in a
    [str] pattern: TAB, LF, VT, FF, CR, FS, GS, RS, US, SPACE, NEL, NBSP. *)
Definition is_space (c : ascii) : bool :=
  ((9 <=? code c)%nat && (code c <=? 13)%nat)
  || ((28 <=? code c)%nat && (code c <=? 32)%nat)
  || (code c =? 133)%nat || (code c =? 160)%nat.

Definition is_dot (c : ascii) : bool := (code c =? 46)%nat.

Definition is_newline (c : ascii) : bool := (code c =? 10)%nat.

Fixpoint lstrip (s : text) : text :=
  match s with
  | c :: t => if is_space c then lstrip t else s
  | [] => []
  end.

Definition rstrip (s : text) : text := rev (lstrip (rev s)).

(** [str.strip()] with no argument. *)
Definition strip (s : text) : text := lstrip (rstrip s).

(** [str.upper()] on one code point: a-z, and the Latin-1 letters whose
    capital is again an 8-bit code point.  (The capitals of code points 181,
    223 and 255 lie outside the 8-bit range; they are left as they are.) *)
Definition upper_char (c : ascii) : ascii :=
  let n := code c in
  if ((97 <=? n)%nat && (n <=? 122)%nat)
     || ((224 <=? n)%nat && (n <=? 254)%nat && negb (n =? 247)%nat)
  then ascii_of_nat (n - 32) else c.

Definition upper (s : text) : text := map upper_char s.

(** The code points on which [upper_char] is [str.upper]: all but 181, 223
    and 255.  A text with one of these three is outside the model (its
    uppercase form is not a text over 8-bit code points), and every
    statement about uppercased values is made for texts without them. *)
Definition upper_exact (c : ascii) : bool :=
  negb (code c =? 181)%nat && negb (code c =? 223)%nat
  && negb (code c =? 255)%nat.

Definition str_strip (s : string) : string :=
  string_of_list_ascii (strip (list_ascii_of_string s)).

Definition str_upper (s : string) : string :=
  string_of_list_ascii (upper (list_ascii_of_string s)).

(** ** QuestionExtractor

    [pattern = r'(\d+\.\s.*?)(?=\d+\.\s|$)'], searched with [re.DOTALL]. *)

(** Number of leading digits: the greedy [\d+]. *)
Fixpoint span_digits (s : text) : nat :=
  match s with
  | c :: t => if is_digit c then S (span_digits t) else O
  | [] => O
  end.

(** [\d+\.\s] anchored at the head of [s]: the length it consumes.  The
    digits are taken greedily; giving one back leaves a digit where the
    period is required, so the greedy split is the only one that matches. *)
Definition marker_len (s : text) : option nat :=
  let d := span_digits s in
  match d with
  | O => None
  | S _ =>
      match drop d s with
      | p :: w :: _ => if is_dot p && is_space w then Some (d + 2)%nat else None
      | _ => None
      end
  end.

(** [$] without [re.MULTILINE]: at the end of the text, or just before a
    newline that ends the text. *)
Definition at_dollar (s : text) : bool :=
  match s with
  | [] => true
  | [c] => is_newline c
  | _ => false
  end.

(** The lookahead [(?=\d+\.\s|$)]. *)
Definition lookahead (s : text) : bool :=
  match marker_len s with
  | Some _ => true
  | None => at_dollar s
  end.

(** The lazy [.*?] (any character, [re.DOTALL]) followed by the lookahead:
    the number of characters consumed before the lookahead first holds. *)
Fixpoint lazy_body (s : text) : nat :=
  if lookahead s then O
  else match s with
       | _ :: t => S (lazy_body t)
       | [] => O
       end.

(** The whole pattern anchored at the head of [s]: the length of the match.
    Group 1 spans the whole match, the lookahead being zero-width. *)
Definition match_at (s : text) : option nat :=
  match marker_len s with
  | Some m => Some (m + lazy_body (drop m s))%nat
  | None => None
  end.

(** [re.findall]: leftmost matches, the scan resuming where the previous
    match ended.  [skip] counts the characters of the current match that are
    still to be passed over.  A match is never empty, and none can start at
    the very end of the text. *)
Fixpoint findall_from (skip : nat) (s : text) : list text :=
  match s with
  | [] => []
  | _ :: t =>
      match skip with
      | S k => findall_from k t
      | O =>
          match match_at s with
          | Some n => take n s :: findall_from (n - 1) t
          | None => findall_from 0 t
          end
      end
  end.

Definition findall (s : text) : list text := findall_from 0 s.

Definition advisory : string :=
  "Could not auto-detect questions. Please ensure PDF text is selectable and numbered (1. , 2. ).".

(** The part of [extract_questions_from_pdf] after the page text is joined. *)
Definition extract_questions_from_text (txt : string) : list string :=
  let matches := findall (list_ascii_of_string txt) in
  match matches with
  | [] => [advisory]
  | _ => map (fun m => string_of_list_ascii (strip m)) matches
  end.

(** [text += page.extract_text() + "\n"] over the pages. *)
Fixpoint join_pages (acc : string) (pages : list string) : string :=
  match pages with
  | [] => acc
  | p :: rest => join_pages (acc ++ (p ++ String "010" EmptyString))%string rest
  end.

Definition extract_questions_from_pdf (pages : list string) : list string :=
  extract_questions_from_text (join_pages EmptyString pages).

(** ** Exceptions

    The Python exceptions the modelled code can meet, and the result of a
    computation that may raise one. *)

Inductive exn :=
| ReadError | IndexError | AttributeError | KeyError | TypeError
| ZeroDivisionError | StreamlitAPIException.

Inductive res (A : Type) :=
| Ok (a : A)
| Raise (e : exn).
Arguments Ok {A} a.
Arguments Raise {A} e.

Definition bind {A B} (r : res A) (k : A -> res B) : res B :=
  match r with
  | Ok a => k a
  | Raise e => Raise e
  end.

Notation "'try' x <- r ; k" := (bind r (fun x => k))
  (at level 10, x name, r at level 100, k at level 200).

(** ** AnswerKeyParser *)

(** The keys of the answer-key dictionary are what the first column holds:
    integers for an [int64] column, strings for an [object] column. *)
Inductive pykey :=
| KInt (z : Z)
| KStr (s : string).

#[global] Instance pykey_eq_dec : EqDecision pykey.
Proof. solve_decision. Defined.

#[global] Instance pykey_countable : Countable pykey.
Proof.
  refine (inj_countable'
            (fun k => match k with KInt z => inl z | KStr s => inr s end)
            (fun x => match x with inl z => KInt z | inr s => KStr s end) _).
  intros []; reflexivity.
Defined.

(** A column as [pd.read_csv] types it: [int64] when every cell is an
    integer, [object] when the cells are strings.  (Columns with decimals or
    missing cells, of dtype [float64], are outside this model.) *)
Inductive Series :=
| IntCol (cells : list Z)
| ObjCol (cells : list string).

(** The frame, as [iloc] sees it: its columns by position. *)
Abbreviation DataFrame := (list Series).

(** [df.iloc[:, k]] *)
Definition iloc_col (df : DataFrame) (k : nat) : res Series :=
  match df !! k with
  | Some c => Ok c
  | None => Raise IndexError
  end.

(** The [.str] accessor: only for string columns. *)
Definition str_accessor (c : Series) : res (list string) :=
  match c with
  | ObjCol cells => Ok cells
  | IntCol _ => Raise AttributeError
  end.

(** Iterating a column yields its cells. *)
Definition series_keys (c : Series) : list pykey :=
  match c with
  | IntCol cells => map KInt cells
  | ObjCol cells => map KStr cells
  end.

(** [dict(pairs)]: later pairs overwrite earlier ones. *)
Definition dict_of_pairs (pairs : list (pykey * string)) : gmap pykey string :=
  fold_left (fun d kv => <[kv.1 := kv.2]> d) pairs ∅.

(** The body of the [try] block, given what [pd.read_csv] returned. *)
Definition key_dict_of (df : DataFrame) : res (gmap pykey string) :=
  try c0 <- iloc_col df 0;
  try c1 <- iloc_col df 1;
  try vals <- str_accessor c1;
  Ok (dict_of_pairs
        (zip (series_keys c0) (map (fun v => str_strip (str_upper v)) vals))).

(** [load_answer_key]: the dictionary returned, and the exception shown by
    [st.error] if there was one.  The uploaded file is given by the outcome
    of [pd.read_csv] on it. *)
Definition load_answer_key (uploaded_key : res DataFrame)
  : gmap pykey string * option exn :=
  match (try df <- uploaded_key; key_dict_of df) with
  | Ok key_dict => (key_dict, None)
  | Raise e => (∅, Some e)
  end.

(** ** ScoringEngine *)

Record ResultRow := {
  q_no : Z;
  your_answer : string;
  correct_answer : string;
  status : string
}.

#[global] Instance ResultRow_eq_dec : EqDecision ResultRow.
Proof. solve_decision. Defined.

(** The variables the scoring loop updates. *)
Record tally := {
  correct_count : Z;
  wrong_count : Z;
  unattempted_count : Z;
  results_data : list ResultRow
}.

Definition tally0 : tally :=
  {| correct_count := 0; wrong_count := 0; unattempted_count := 0;
     results_data := [] |}.

(** [d.get(k, default)] *)
Definition dict_get `{Countable K} {V} (d : gmap K V) (k : K) (dflt : V) : V :=
  match d !! k with
  | Some v => v
  | None => dflt
  end.

(** One iteration of the loop, lines 171-198. *)
Definition score_body (user_answers : gmap Z string)
    (real_key : gmap pykey string) (i : nat) (t : tally) : tally :=
  let q_num := Z.of_nat i + 1 in
  let user_ans := dict_get user_answers (Z.of_nat i) "Unattempted"%string in
  let correct_ans := dict_get real_key (KInt q_num) "N/A"%string in
  let status0 := "Unattempted"%string in
  let '(c, w, u, st) :=
    if bool_decide (user_ans = "Unattempted"%string) then
      (correct_count t, wrong_count t, unattempted_count t + 1, status0)
    else if bool_decide (user_ans = correct_ans) then
      (correct_count t + 1, wrong_count t, unattempted_count t,
       "Correct"%string)
    else if negb (bool_decide (correct_ans = "N/A"%string)) then
      (correct_count t, wrong_count t + 1, unattempted_count t,
       "Wrong"%string)
    else
      (correct_count t, wrong_count t, unattempted_count t,
       "Key Missing"%string) in
  {| correct_count := c; wrong_count := w; unattempted_count := u;
     results_data := results_data t ++
       [{| q_no := q_num; your_answer := user_ans;
           correct_answer := correct_ans; status := st |}] |}.

(** [for i in range(n): s = body(i, s)] *)
Definition for_range {S : Type} (n : nat) (body : nat -> S -> S) (s : S) : S :=
  fold_left (fun acc i => body i acc) (seq 0 n) s.

(** Lines 165-198. *)
Definition score_loop (questions : list string) (user_answers : gmap Z string)
    (real_key : gmap pykey string) : tally :=
  for_range (length questions) (score_body user_answers real_key) tally0.

(** Line 200. *)
Definition final_score (t : tally) (positive_marks negative_marks : Z) : Z :=
  (correct_count t * positive_marks) - (wrong_count t * negative_marks).

(** ** ExamSession

    The script is run again after every interaction.  A session is observed
    once the initialisation block (lines 12-21) has run: the five keys it
    sets are present; [questions] and [real_answer_key] are absent until the
    test is started. *)

Record session := {
  answers : gmap Z string;
  current_question : Z;
  exam_started : bool;
  exam_submitted : bool;
  start_time : option Z;
  questions : option (list string);
  real_answer_key : option (gmap pykey string)
}.

(** What the initialisation block gives on an empty session state. *)
Definition fresh : session :=
  {| answers := ∅; current_question := 0; exam_started := false;
     exam_submitted := false; start_time := None; questions := None;
     real_answer_key := None |}.

(** The button pressed to trigger this run, if any: a button reads [True]
    in the one run its click triggers. *)
Inductive click :=
| NoClick | StartTest | Previous | Next | SubmitExam | SaveResult
| TakeAnother.

#[global] Instance click_eq_dec : EqDecision click.
Proof. solve_decision. Defined.

(** The widget values of one run. *)
Record widgets := {
  uploaded_pdf : option (list string);
  uploaded_key : option (res DataFrame);
  radio_answer : string;
  clicked : click;
  clock : Z
}.

Definition radio_options : list string :=
  ["Unattempted"; "A"; "B"; "C"; "D"]%string.

(** [st.session_state[k]] for a key that may be absent. *)
Definition state_get {A} (v : option A) : res A :=
  match v with
  | Some a => Ok a
  | None => Raise KeyError
  end.

(** [l[i]], with Python's negative indices. *)
Definition py_index {A} (l : list A) (i : Z) : res A :=
  let n := Z.of_nat (length l) in
  let j := if i <? 0 then i + n else i in
  if (0 <=? j) && (j <? n) then
    match l !! Z.to_nat j with
    | Some a => Ok a
    | None => Raise IndexError
    end
  else Raise IndexError.

(** Lines 130-138: the radio value is stored unless it is "Unattempted". *)
Definition record_answer (idx : Z) (answer : string) (s : session) : session :=
  if negb (bool_decide (answer = "Unattempted"%string)) then
    {| answers := <[idx := answer]> (answers s);
       current_question := current_question s;
       exam_started := exam_started s;
       exam_submitted := exam_submitted s;
       start_time := start_time s;
       questions := questions s;
       real_answer_key := real_answer_key s |}
  else s.

Definition set_current_question (i : Z) (s : session) : session :=
  {| answers := answers s; current_question := i;
     exam_started := exam_started s; exam_submitted := exam_submitted s;
     start_time := start_time s; questions := questions s;
     real_answer_key := real_answer_key s |}.

Definition set_exam_submitted (s : session) : session :=
  {| answers := answers s; current_question := current_question s;
     exam_started := exam_started s; exam_submitted := true;
     start_time := start_time s; questions := questions s;
     real_answer_key := real_answer_key s |}.

(** Lines 95-98. *)
Definition start_exam (pdf : list string) (key : res DataFrame) (now : Z)
    (s : session) : session :=
  {| answers := answers s; current_question := current_question s;
     exam_started := true; exam_submitted := exam_submitted s;
     start_time := Some now;
     questions := Some (extract_questions_from_pdf pdf);
     real_answer_key := Some (load_answer_key key).1 |}.

(** Lines 116-154: the exam-taking branch.  The timer needs a start time,
    [st.progress] a fraction [(idx + 1) / len(questions)] between 0 and 1,
    and [questions[idx]] an index in range. *)
Definition exam_taking (w : widgets) (s : session) : res session :=
  try qs <- state_get (questions s);
  let idx := current_question s in
  try _t0 <- match start_time s with Some t => Ok t | None => Raise TypeError end;
  try _p <- (if bool_decide (length qs = 0%nat) then Raise ZeroDivisionError
             else if (idx + 1 <? 0) || (Z.of_nat (length qs) <? idx + 1)
             then Raise StreamlitAPIException
             else Ok tt);
  try _q <- py_index qs idx;
  let s1 := record_answer idx (radio_answer w) s in
  if (0 <? idx) && bool_decide (clicked w = Previous) then
    Ok (set_current_question (current_question s1 - 1) s1)
  else if idx <? Z.of_nat (length qs) - 1 then
    if bool_decide (clicked w = Next) then
      Ok (set_current_question (current_question s1 + 1) s1)
    else Ok s1
  else
    if bool_decide (clicked w = SubmitExam) then Ok (set_exam_submitted s1)
    else Ok s1.

(** Lines 157-231, as far as the session goes: the scorecard is display, the
    save button writes the history store, and "Take Another Test" deletes
    every key, so that the next run starts from [fresh]. *)
Definition results_page (w : widgets) (s : session) : res session :=
  try _qs <- state_get (questions s);
  try _key <- state_get (real_answer_key s);
  if bool_decide (clicked w = TakeAnother) then Ok fresh else Ok s.

(** Lines 93-99: the start button is drawn, and acted on, only when both
    files are uploaded and no test is running.  [uploaded_pdf] holds the
    page texts of a PDF that could be read; a PDF that cannot is handled in
    [script_run]. *)
Definition sidebar_start (w : widgets) (s : session) : option session :=
  match uploaded_pdf w, uploaded_key w with
  | Some pdf, Some key =>
      if negb (exam_started s) && bool_decide (clicked w = StartTest)
      then Some (start_exam pdf key (clock w) s)
      else None
  | _, _ => None
  end.

(** Lines 106-231: the three pages, as far as the session goes.  The calls
    that reach outside the session (the history file, the styling of the
    table) and may fail there are part of [script_run]. *)
Definition main_page (w : widgets) (s : session) : res session :=
  if negb (exam_started s) && negb (exam_submitted s) then Ok s
  else if exam_started s && negb (exam_submitted s) then exam_taking w s
  else if exam_submitted s then results_page w s
  else Ok s.

(** One run of the script, up to its end or to [st.rerun()]. *)
Definition run (w : widgets) (s : session) : res session :=
  match sidebar_start w s with
  | Some s' => Ok s'
  | None => main_page w s
  end.

(** A run whose radio value is one of the options offered. *)
Definition step (s s' : session) : Prop :=
  exists w, radio_answer w ∈ radio_options /\ run w s = Ok s'.

(** The sessions the script can reach from an empty session state. *)
Inductive reachable : session -> Prop :=
| reach_fresh : reachable fresh
| reach_step s s' : reachable s -> step s s' -> reachable s'.

(** ** HistoryStore *)

Inductive cell :=
| CInt (z : Z)
| CStr (s : string).

(** A table with named columns; a row maps column names to cells, a name
    that is absent from a row being a missing value. *)
Record frame := {
  columns : list string;
  rows : list (gmap string cell)
}.





(** [pd.concat([a, b], ignore_index=True)]: the columns of [a], then those
    of [b] that [a] lacks; the rows of [a], then those of [b]. *)
Definition concat (a b : frame) : frame :=
  {| columns := columns a ++ filter (fun c => c ∉ columns a) (columns b);
     rows := rows a ++ rows b |}.

Section HistoryStore.
(** The tabular primitives: what a file holds, and pandas' writer and
    reader for it. *)
Variable File : Type.
Variable to_csv : frame -> File.
Variable read_csv : File -> res frame.




End HistoryStore.

(** ** Results page: styling and the save button *)

(** [color_status], lines 213-216: the style of a status cell. *)
Definition color_status (val : string) : string :=
  if bool_decide (val = "Correct"%string)
  then "background-color: #d4edda; color: #155724"
  else if bool_decide (val = "Wrong"%string)
  then "background-color: #f8d7da; color: #721c24"
  else "".

Section ResultsPage.
Variable File : Type.
Variable to_csv : frame -> File.
Variable read_csv : File -> res frame.

End ResultsPage.

(** ** The history file as CSV

    What [to_csv] and [pd.read_csv] do on the history tables, modelled on
    pandas' defaults: a file is its lines of fields, the header first (the
    quoting of fields is left out); cells are written as text without any
    mark of their type, and on reading a column whose fields are all decimal
    integers comes back as integers, any other column as text, an empty
    field as a missing value.  (pandas also reads some texts as missing
    values, decimals or booleans; such fields are not told apart from text
    here.)  A file without a header line cannot be read. *)

Abbreviation csv_file := (list (list string)).










(** ** One run of the script, the outside calls included *)

Section ScriptRun.
Variable File : Type.
Variable to_csv : frame -> File.
Variable read_csv : File -> res frame.

End ScriptRun.

(** * Vocabulary of the properties *)

(** ** Scoring: verdicts and expected rows *)

(** The four outcomes of a question, and the classification by priority as
    the specification words it. *)
Inductive verdict := Unattempted | Correct | Wrong | KeyMissing.

#[global] Instance verdict_eq_dec : EqDecision verdict.
Proof. solve_decision. Defined.

Definition verdict_name (v : verdict) : string :=
  match v with
  | Unattempted => "Unattempted"
  | Correct => "Correct"
  | Wrong => "Wrong"
  | KeyMissing => "Key Missing"
  end.

Definition classify (user_answer correct_ans : string) : verdict :=
  if bool_decide (user_answer = "Unattempted"%string) then Unattempted
  else if bool_decide (user_answer = correct_ans) then Correct
  else if bool_decide (correct_ans ≠ "N/A"%string) then Wrong
  else KeyMissing.

(** The row the specification expects for index [i]. *)
Definition spec_row (recorded : gmap Z string) (key : gmap pykey string)
    (i : nat) : ResultRow :=
  let u := dict_get recorded (Z.of_nat i) "Unattempted"%string in
  let c := dict_get key (KInt (Z.of_nat i + 1)) "N/A"%string in
  {| q_no := Z.of_nat i + 1; your_answer := u; correct_answer := c;
     status := verdict_name (classify u c) |}.

Definition indicator (b : bool) : Z := if b then 1 else 0.

(** Appending a row with verdict [v]: exactly the counter of [v] grows,
    none for [KeyMissing]. *)
Definition record_verdict (v : verdict) (row : ResultRow) (t : tally) : tally :=
  {| correct_count := correct_count t + indicator (bool_decide (v = Correct));
     wrong_count := wrong_count t + indicator (bool_decide (v = Wrong));
     unattempted_count :=
       unattempted_count t + indicator (bool_decide (v = Unattempted));
     results_data := results_data t ++ [row] |}.

(** Number of rows with a given status. *)
Definition count_status (st : string) (rs : list ResultRow) : Z :=
  Z.of_nat (length (filter (fun r => status r = st) rs)).

(** What one row adds to the score. *)
Definition row_marks (positive_marks negative_marks : Z) (r : ResultRow) : Z :=
  if bool_decide (status r = "Correct"%string) then positive_marks
  else if bool_decide (status r = "Wrong"%string) then - negative_marks
  else 0.

Definition sum_marks (positive_marks negative_marks : Z)
    (rs : list ResultRow) : Z :=
  foldr (fun r acc => row_marks positive_marks negative_marks r + acc) 0 rs.

(** ** Session: option letters and sample sessions *)

Definition option_letters : list string := ["A"; "B"; "C"; "D"]%string.

(** Every stored answer is an option letter. *)
Definition letters_only (m : gmap Z string) : Prop :=
  forall i v, m !! i = Some v -> v ∈ option_letters.

(** A session in the middle of a test, with question 1 answered "A". *)
Definition answered_first : session :=
  {| answers := {[ 0 := "A"%string ]}; current_question := 0;
     exam_started := true; exam_submitted := false; start_time := Some 0;
     questions := Some ["1. first"; "2. second"]%string;
     real_answer_key := Some ∅ |}.

(** A run in which the radio shows [a] and no button was pressed. *)
Definition idle_with (a : string) : widgets :=
  {| uploaded_pdf := None; uploaded_key := None; radio_answer := a;
     clicked := NoClick; clock := 0 |}.

(** The test is started on a two-question paper and question 1 is answered
    "A": a session the script reaches. *)
Definition start_widgets : widgets :=
  {| uploaded_pdf := Some ["1. first"; "2. second"]%string;
     uploaded_key := Some (Ok [IntCol [1; 2]; ObjCol ["a"; "b "]%string]);
     radio_answer := "Unattempted"; clicked := StartTest; clock := 0 |}.

Definition just_started : session :=
  start_exam ["1. first"; "2. second"]%string
    (Ok [IntCol [1; 2]; ObjCol ["a"; "b "]%string]) 0 fresh.

Definition first_answered : session := record_answer 0 "A" just_started.

(** ** Extraction: occurrences of the boundary pattern *)

(** The occurrences of the boundary pattern [\d+\.\s] in a text, found from
    left to right without overlap: their start positions.  [pos] is the
    position of the head of [s] in the whole text. *)
Fixpoint markers_from (skip pos : nat) (s : text) : list nat :=
  match s with
  | [] => []
  | _ :: t =>
      match skip with
      | S k => markers_from k (S pos) t
      | O =>
          match marker_len s with
          | Some m => pos :: markers_from (m - 1) (S pos) t
          | None => markers_from 0 (S pos) t
          end
      end
  end.

Definition markers (s : text) : list nat := markers_from 0 0 s.

(** The characters of [s] from position [p] up to, not including, [q]. *)
Definition sublist (p q : nat) (s : text) : text := take (q - p) (drop p s).

(** The text cut at the given positions: each piece runs from its position
    to the next one, the last piece to the end of the text. *)
Fixpoint cut (ps : list nat) (s : text) : list text :=
  match ps with
  | [] => []
  | p :: rest => sublist p (hd (length s) rest) s :: cut rest s
  end.

(** A page with two numbered questions and a stray decimal. *)
Definition two_questions : string := "1. What is 2+2?
A. 3  B. 4
2. Next 12.5 one
".

(** ** Answer key: well-formed rows *)

(** The value of the last row whose key is [k], if there is one. *)
Fixpoint last_row {K V} `{EqDecision K} (k : K) (rows : list (K * V))
  : option V :=
  match rows with
  | [] => None
  | (q, a) :: rest =>
      match last_row k rest with
      | Some v => Some v
      | None => if decide (q = k) then Some a else None
      end
  end.

(** Uppercased, then trimmed. *)
Definition normalise (a : string) : string := str_strip (str_upper a).

(** The frame read from well-formed rows: question numbers in the first
    column, option strings in the second, any further columns after them. *)
Definition frame_of_rows (rows : list (Z * string)) (more : list Series)
  : DataFrame :=
  IntCol rows.*1 :: ObjCol rows.*2 :: more.

Definition lowercase (c : ascii) : bool :=
  (97 <=? code c)%nat && (code c <=? 122)%nat.

(** A string with no lowercase letter a-z. *)
Definition is_upper (v : string) : Prop :=
  forallb (fun c => negb (lowercase c)) (list_ascii_of_string v) = true.

(** A string that neither starts nor ends with whitespace. *)
Definition is_trimmed (v : string) : Prop :=
  forall c, head (list_ascii_of_string v) = Some c
            \/ last (list_ascii_of_string v) = Some c ->
            is_space c = false.

(** ** History: records *)





(** ** Session: the shape of a session between runs *)

(** Before a test is started the session is the fresh one; from the start
    on, the paper, the key and the start time are present, the current
    question is a question of the paper, and so is every answered index. *)
Definition well_formed (s : session) : Prop :=
  if exam_started s then
    exists qs key t,
      questions s = Some qs /\ real_answer_key s = Some key
      /\ start_time s = Some t
      /\ 0 <= current_question s < Z.of_nat (length qs)
      /\ (forall i v, answers s !! i = Some v -> 0 <= i < Z.of_nat (length qs))
  else s = fresh.

(** Number of indices below [n] without a recorded answer. *)
Fixpoint unanswered_below (m : gmap Z string) (n : nat) : Z :=
  match n with
  | O => 0
  | S k => unanswered_below m k
           + indicator (bool_decide (m !! Z.of_nat k = None))
  end.

(** A run in which button [c] was pressed, the radio at its default. *)
Definition press (c : click) : widgets :=
  {| uploaded_pdf := None; uploaded_key := None;
     radio_answer := "Unattempted"; clicked := c; clock := 0 |}.

(** The two-question test, moved on to its last question. *)
Definition on_last_question : session := set_current_question 1 first_answered.

(** ** Scoring: rows of the result table *)

(** A row the table highlights: [color_status] gives it a style. *)
Definition highlighted (r : ResultRow) : bool :=
  negb (bool_decide (color_status (status r) = EmptyString)).

Definition count_highlighted (rs : list ResultRow) : Z :=
  Z.of_nat (length (List.filter highlighted rs)).

(** A row scored without a key entry: no known answer, and a neutral
    status. *)
Definition neutral_row (r : ResultRow) : Prop :=
  correct_answer r = "N/A"%string
  /\ (status r = "Unattempted"%string \/ status r = "Key Missing"%string).

(** ** Extraction: the shape of an extracted question *)

(** A string that begins with a number and a period. *)
Definition numbered (q : string) : Prop :=
  exists ds rest,
    list_ascii_of_string q = ds ++ "."%char :: rest
    /\ ds <> [] /\ forallb is_digit ds = true.

(** ** History: several attempts *)



(** ** Scoring: the verdict read off the two maps *)

(** The verdict for index [i], from the entry of the recorded answers at
    [i] and the entry of the key at [i + 1]. *)
Definition verdict_at (recorded : gmap Z string) (key : gmap pykey string)
    (i : nat) : verdict :=
  classify (default "Unattempted"%string (recorded !! Z.of_nat i))
           (default "N/A"%string (key !! KInt (Z.of_nat i + 1))).

(** The row for index [i], from the two maps. *)
Definition expected_row (recorded : gmap Z string) (key : gmap pykey string)
    (i : nat) : ResultRow :=
  {| q_no := Z.of_nat i + 1;
     your_answer := default "Unattempted"%string (recorded !! Z.of_nat i);
     correct_answer := default "N/A"%string (key !! KInt (Z.of_nat i + 1));
     status := verdict_name (verdict_at recorded key i) |}.

(** The status by cases on the entries themselves. *)
Definition status_by_cases (entry key_entry : option string) : string :=
  match entry with
  | None => "Unattempted"
  | Some u =>
      if bool_decide (u = "Unattempted"%string) then "Unattempted"
      else match key_entry with
           | Some c =>
               if bool_decide (u = c) then "Correct"
               else if bool_decide (c = "N/A"%string) then "Key Missing"
               else "Wrong"
           | None =>
               if bool_decide (u = "N/A"%string) then "Correct"
               else "Key Missing"
           end
  end.

(** ** Text: the character classes, the pattern and trimming, read
    independently of the scanner *)

(** The characters [\d] accepts. *)
Definition Digit (c : ascii) : Prop :=
  c ∈ list_ascii_of_string "0123456789".

(** The code points [\s] and [str.strip] treat as whitespace. *)
Definition White (c : ascii) : Prop :=
  nat_of_ascii c ∈ [9; 10; 11; 12; 13; 28; 29; 30; 31; 32; 133; 160]%nat.

(** A text that neither starts nor ends with whitespace. *)
Definition Trimmed (t : text) : Prop :=
  forall c, head t = Some c \/ last t = Some c -> ~ White c.

(** [t] is [piece] without the whitespace at its two ends. *)
Definition trimmed_of (piece t : text) : Prop :=
  exists l r,
    piece = l ++ t ++ r /\ Forall White l /\ Forall White r /\ Trimmed t.

(** The boundary pattern (digits, a period, a whitespace) matches [n]
    characters of [s] from position [p] on. *)
Definition matches_at (s : text) (p n : nat) : Prop :=
  exists ds w rest,
    drop p s = ds ++ "."%char :: w :: rest
    /\ ds <> [] /\ Forall Digit ds /\ White w
    /\ n = (length ds + 2)%nat.

(** The occurrences of the boundary pattern from position [from] on, left
    to right and without overlap: each is the first match at or after the
    end of the one before. *)
Inductive occurrences (s : text) : nat -> list nat -> Prop :=
| occ_none from :
    (forall p n, (from <= p)%nat -> ~ matches_at s p n) ->
    occurrences s from []
| occ_next from p n ps :
    (from <= p)%nat -> matches_at s p n ->
    (forall q m, (from <= q < p)%nat -> ~ matches_at s q m) ->
    occurrences s (p + n) ps ->
    occurrences s from (p :: ps).

(** The capital of a letter, from the table of letter pairs: a-z, and the
    Latin-1 letters 224-254 (247, the division sign, is not one). *)
Definition capital_pairs : list (ascii * ascii) :=
  zip (list_ascii_of_string "abcdefghijklmnopqrstuvwxyz")
      (list_ascii_of_string "ABCDEFGHIJKLMNOPQRSTUVWXYZ")
  ++ map (fun n => (ascii_of_nat n, ascii_of_nat (n - 32)))
         [224; 225; 226; 227; 228; 229; 230; 231; 232; 233; 234; 235; 236;
          237; 238; 239; 240; 241; 242; 243; 244; 245; 246; 248; 249; 250;
          251; 252; 253; 254]%nat.

Fixpoint assoc_char (c : ascii) (pairs : list (ascii * ascii)) : option ascii :=
  match pairs with
  | [] => None
  | (x, y) :: rest => if Ascii.eqb x c then Some y else assoc_char c rest
  end.

Definition capital (c : ascii) : ascii :=
  default c (assoc_char c capital_pairs).

(** [v] is [a] with every letter replaced by its capital and the whitespace
    at the two ends removed. *)
Definition normalised_of (a v : string) : Prop :=
  trimmed_of (map capital (list_ascii_of_string a)) (list_ascii_of_string v).

(** A text [upper] handles exactly. *)
Definition in_upper_domain (a : string) : Prop :=
  forallb upper_exact (list_ascii_of_string a) = true.

(** ** History: an attempt whose shift is named by a number *)



(** * Properties *)

(** ** Scoring *)

Lemma verdict_name_inj v1 v2 : verdict_name v1 = verdict_name v2 -> v1 = v2.
Proof. destruct v1, v2; simpl; intros H; try reflexivity; discriminate H. Qed.

Lemma score_body_spec recorded key i t :
  score_body recorded key i t =
  record_verdict
    (classify (dict_get recorded (Z.of_nat i) "Unattempted"%string)
              (dict_get key (KInt (Z.of_nat i + 1)) "N/A"%string))
    (spec_row recorded key i) t.
Proof.
  unfold score_body, record_verdict, spec_row, classify.
  destruct t as [c w u rs]; simpl.
  repeat case_bool_decide; simpl; try congruence;
    f_equal; unfold indicator; simpl; lia.
Qed.

Lemma count_status_app st rs1 rs2 :
  count_status st (rs1 ++ rs2) = count_status st rs1 + count_status st rs2.
Proof.
  unfold count_status. rewrite filter_app, length_app. lia.
Qed.

Lemma count_status_row st recorded key i :
  count_status st [spec_row recorded key i] =
  indicator (bool_decide
    (verdict_name (classify (dict_get recorded (Z.of_nat i) "Unattempted"%string)
                            (dict_get key (KInt (Z.of_nat i + 1)) "N/A"%string))
     = st)).
Proof.
  unfold count_status. rewrite filter_cons, filter_nil. simpl.
  case_decide; case_bool_decide; simpl; solve [reflexivity | congruence].
Qed.

Lemma indicator_name v v' :
  indicator (bool_decide (verdict_name v = verdict_name v')) =
  indicator (bool_decide (v = v')).
Proof.
  repeat case_bool_decide; try reflexivity.
  - exfalso. auto using verdict_name_inj.
  - exfalso. subst. auto.
Qed.

(** The loop invariant, over any list of indices still to be processed. *)
Lemma score_fold_spec recorded key (idxs : list nat) (t : tally) :
  let t' := fold_left (fun acc i => score_body recorded key i acc) idxs t in
  results_data t' = results_data t ++ map (spec_row recorded key) idxs
  /\ correct_count t' = correct_count t
       + count_status "Correct" (map (spec_row recorded key) idxs)
  /\ wrong_count t' = wrong_count t
       + count_status "Wrong" (map (spec_row recorded key) idxs)
  /\ unattempted_count t' = unattempted_count t
       + count_status "Unattempted" (map (spec_row recorded key) idxs).
Proof.
  revert t. induction idxs as [|i idxs IH]; intros t; simpl.
  - rewrite app_nil_r. unfold count_status. simpl. repeat split; lia.
  - destruct (IH (score_body recorded key i t)) as (Hr & Hc & Hw & Hu).
    rewrite Hr, Hc, Hw, Hu. clear IH Hr Hc Hw Hu.
    rewrite score_body_spec. unfold record_verdict; simpl.
    change (spec_row recorded key i :: map (spec_row recorded key) idxs)
      with ([spec_row recorded key i] ++ map (spec_row recorded key) idxs).
    rewrite !count_status_app, !count_status_row.
    rewrite <- (indicator_name _ Correct), <- (indicator_name _ Wrong),
            <- (indicator_name _ Unattempted). simpl.
    rewrite <- app_assoc. repeat split; lia.
Qed.

Lemma score_loop_spec questions recorded key :
  let t := score_loop questions recorded key in
  let expected := map (spec_row recorded key) (seq 0 (length questions)) in
  results_data t = expected
  /\ correct_count t = count_status "Correct" expected
  /\ wrong_count t = count_status "Wrong" expected
  /\ unattempted_count t = count_status "Unattempted" expected.
Proof.
  unfold score_loop, for_range.
  destruct (score_fold_spec recorded key (seq 0 (length questions)) tally0)
    as (Hr & Hc & Hw & Hu).
  simpl in *. repeat split; assumption.
Qed.

Lemma classify_cases u c :
  indicator (bool_decide (classify u c = Correct))
  + indicator (bool_decide (classify u c = Wrong))
  + indicator (bool_decide (classify u c = Unattempted))
  + indicator (bool_decide (classify u c = KeyMissing)) = 1.
Proof. destruct (classify u c); reflexivity. Qed.

Lemma count_status_rows_total recorded key (idxs : list nat) :
  let rs := map (spec_row recorded key) idxs in
  count_status "Correct" rs + count_status "Wrong" rs
  + count_status "Unattempted" rs + count_status "Key Missing" rs
  = Z.of_nat (length idxs).
Proof.
  induction idxs as [|i idxs IH]; [reflexivity|].
  simpl in *.
  change (spec_row recorded key i :: map (spec_row recorded key) idxs)
    with ([spec_row recorded key i] ++ map (spec_row recorded key) idxs).
  rewrite !count_status_app, !count_status_row.
  pose proof (classify_cases
    (dict_get recorded (Z.of_nat i) "Unattempted"%string)
    (dict_get key (KInt (Z.of_nat i + 1)) "N/A"%string)) as Hc.
  rewrite <- (indicator_name _ Correct), <- (indicator_name _ Wrong),
          <- (indicator_name _ Unattempted), <- (indicator_name _ KeyMissing)
    in Hc.
  simpl in Hc. lia.
Qed.

Lemma row_marks_spec_row p n recorded key i :
  let v := classify (dict_get recorded (Z.of_nat i) "Unattempted"%string)
                    (dict_get key (KInt (Z.of_nat i + 1)) "N/A"%string) in
  row_marks p n (spec_row recorded key i) =
  indicator (bool_decide (v = Correct)) * p
  - indicator (bool_decide (v = Wrong)) * n.
Proof.
  unfold row_marks, spec_row; simpl.
  destruct (classify _ _); simpl; lia.
Qed.

Lemma sum_marks_rows p n recorded key (idxs : list nat) :
  let rs := map (spec_row recorded key) idxs in
  sum_marks p n rs
  = count_status "Correct" rs * p - count_status "Wrong" rs * n.
Proof.
  induction idxs as [|i idxs IH]; [reflexivity|].
  simpl in *. rewrite IH, row_marks_spec_row.
  change (spec_row recorded key i :: map (spec_row recorded key) idxs)
    with ([spec_row recorded key i] ++ map (spec_row recorded key) idxs).
  rewrite !count_status_app, !count_status_row.
  rewrite <- (indicator_name _ Correct), <- (indicator_name _ Wrong).
  simpl. lia.
Qed.

Lemma spec_row_expected recorded key i :
  spec_row recorded key i = expected_row recorded key i.
Proof.
  unfold spec_row, expected_row, verdict_at, dict_get.
  destruct (recorded !! Z.of_nat i), (key !! KInt (Z.of_nat i + 1));
    reflexivity.
Qed.

Lemma expected_row_status recorded key i :
  status (expected_row recorded key i)
  = status_by_cases (recorded !! Z.of_nat i) (key !! KInt (Z.of_nat i + 1)).
Proof.
  unfold expected_row, verdict_at, classify, status_by_cases. simpl.
  destruct (recorded !! Z.of_nat i) as [u|],
           (key !! KInt (Z.of_nat i + 1)) as [c|]; simpl;
    repeat case_bool_decide; simpl; congruence.
Qed.

(** C1. For every question list, recorded-answers map and answer key, the
    scoring loop handles the questions in index order, numbering them from
    one.  Row i carries the entry of the recorded answers at i ("Unattempted"
    when the index is absent) and the entry of the key at i + 1 ("N/A" when
    absent); its status is Unattempted when the index is absent, else
    Correct when the answer equals the key's entry, else Wrong when the key
    has an entry other than "N/A", else Key Missing.  One iteration raises
    exactly the counter of its verdict, none of the three for Key Missing,
    so that in the end each counter is the number of rows with its
    status. *)
Theorem scorer_classifies_by_priority
    (questions : list string) (recorded : gmap Z string)
    (key : gmap pykey string) :
  let t := score_loop questions recorded key in
  (forall i t0,
      score_body recorded key i t0 =
      record_verdict (verdict_at recorded key i)
                     (expected_row recorded key i) t0)
  /\ results_data t
     = map (expected_row recorded key) (seq 0 (length questions))
  /\ (forall i, (i < length questions)%nat ->
        exists row,
          results_data t !! i = Some row
          /\ q_no row = Z.of_nat i + 1
          /\ your_answer row
             = default "Unattempted"%string (recorded !! Z.of_nat i)
          /\ correct_answer row
             = default "N/A"%string (key !! KInt (Z.of_nat i + 1))
          /\ status row
             = status_by_cases (recorded !! Z.of_nat i)
                               (key !! KInt (Z.of_nat i + 1)))
  /\ correct_count t = count_status "Correct" (results_data t)
  /\ wrong_count t = count_status "Wrong" (results_data t)
  /\ unattempted_count t = count_status "Unattempted" (results_data t).
Proof.
  intros t. destruct (score_loop_spec questions recorded key)
    as (Hr & Hc & Hw & Hu).
  fold t in Hr, Hc, Hw, Hu.
  assert (results_data t
          = map (expected_row recorded key) (seq 0 (length questions)))
    as Hrows.
  { rewrite Hr. apply map_ext. intros i. apply spec_row_expected. }
  split.
  { intros i t0. rewrite score_body_spec, spec_row_expected.
    unfold verdict_at, dict_get.
    destruct (recorded !! Z.of_nat i), (key !! KInt (Z.of_nat i + 1));
      reflexivity. }
  split; [exact Hrows|]. split.
  { intros i Hi. exists (expected_row recorded key i).
    rewrite Hrows, list_lookup_fmap, lookup_seq_lt by assumption.
    split; [reflexivity|]. repeat split. apply expected_row_status. }
  rewrite Hr. repeat split; assumption.
Qed.

Lemma scorer_classifies_by_priority_witness :
  exists row,
    results_data
      (score_loop ["q1"; "q2"]%string (<[0 := "A"%string]> ∅)
         (<[KInt 1 := "A"%string]> ∅)) !! 1%nat = Some row
    /\ q_no row = 2
    /\ status row = "Unattempted"%string.
Proof.
  destruct (scorer_classifies_by_priority ["q1"; "q2"]%string
              (<[0 := "A"%string]> ∅) (<[KInt 1 := "A"%string]> ∅))
    as (_ & _ & Hrow & _).
  destruct (Hrow 1%nat) as (row & Hlk & Hq & _ & _ & Hst); [simpl; lia|].
  exists row. split; [exact Hlk|]. split; [exact Hq|exact Hst].
Defined.

(** C2. The counts reconcile: correct, wrong and unattempted counts plus the
    number of rows with status Key Missing give the number of questions. *)
Theorem counts_reconcile
    (questions : list string) (recorded : gmap Z string)
    (key : gmap pykey string) :
  let t := score_loop questions recorded key in
  correct_count t + wrong_count t + unattempted_count t
  + count_status "Key Missing" (results_data t)
  = Z.of_nat (length questions).
Proof.
  intros t. destruct (score_loop_spec questions recorded key)
    as (Hr & Hc & Hw & Hu).
  fold t in Hr, Hc, Hw, Hu. rewrite Hr, Hc, Hw, Hu.
  rewrite count_status_rows_total. by rewrite length_seq.
Qed.

(** C4. The final score is correct_count * positive_marks minus
    wrong_count * negative_marks, which is the sum over the rows of
    +positive_marks for Correct, -negative_marks for Wrong and nothing for
    the others; and on three questions with recorded answers {0:A, 1:B}, key
    {1:A, 2:C, 3:B} and marks 4 and 1 the rows are Correct, Wrong,
    Unattempted, the counts 1, 1, 1 and the score 3. *)
Theorem final_score_formula
    (questions : list string) (recorded : gmap Z string)
    (key : gmap pykey string) (positive_marks negative_marks : Z) :
  let t := score_loop questions recorded key in
  final_score t positive_marks negative_marks
    = correct_count t * positive_marks - wrong_count t * negative_marks
  /\ final_score t positive_marks negative_marks
    = sum_marks positive_marks negative_marks (results_data t)
  /\ (forall q1 q2 q3 : string,
       let t3 := score_loop [q1; q2; q3]
                   (<[1 := "B"%string]> (<[0 := "A"%string]> ∅))
                   (<[KInt 3 := "B"%string]>
                      (<[KInt 2 := "C"%string]>
                         (<[KInt 1 := "A"%string]> ∅))) in
       map status (results_data t3)
         = ["Correct"; "Wrong"; "Unattempted"]%string
       /\ correct_count t3 = 1 /\ wrong_count t3 = 1
       /\ unattempted_count t3 = 1 /\ final_score t3 4 1 = 3).
Proof.
  intros t. destruct (score_loop_spec questions recorded key)
    as (Hr & Hc & Hw & Hu).
  fold t in Hr, Hc, Hw, Hu.
  split; [reflexivity|]. split.
  - unfold final_score. rewrite Hr, Hc, Hw. by rewrite sum_marks_rows.
  - intros q1 q2 q3. vm_compute. repeat split; reflexivity.
Qed.

(** With an empty key the two answered questions are Key Missing and the
    third is Unattempted; nothing is counted correct or wrong. *)
Example empty_key_scenario (q1 q2 q3 : string) :
  let t := score_loop [q1; q2; q3]
             (<[1 := "B"%string]> (<[0 := "A"%string]> ∅)) ∅ in
  map status (results_data t)
    = ["Key Missing"; "Key Missing"; "Unattempted"]%string
  /\ correct_count t = 0 /\ wrong_count t = 0 /\ unattempted_count t = 1
  /\ final_score t 4 1 = 0.
Proof. vm_compute. repeat split; reflexivity. Qed.

(** ** Session *)

Lemma record_answer_answers idx a s :
  answers (record_answer idx a s) =
  if bool_decide (a = "Unattempted"%string) then answers s
  else <[idx := a]> (answers s).
Proof. unfold record_answer. case_bool_decide; reflexivity. Qed.

Lemma record_answer_phase idx a s :
  exam_started (record_answer idx a s) = exam_started s
  /\ exam_submitted (record_answer idx a s) = exam_submitted s.
Proof. unfold record_answer. case_bool_decide; split; reflexivity. Qed.

Lemma radio_letter a :
  a ∈ radio_options -> a ≠ "Unattempted"%string -> a ∈ option_letters.
Proof.
  unfold radio_options, option_letters. intros Hin Hne.
  apply elem_of_cons in Hin as [->|Hin]; [congruence|assumption].
Qed.

Lemma record_answer_letters idx a s :
  a ∈ radio_options -> letters_only (answers s) ->
  letters_only (answers (record_answer idx a s)).
Proof.
  intros Hin Hinv. rewrite record_answer_answers.
  case_bool_decide as Ha; [assumption|].
  intros i v Hlk. destruct (decide (idx = i)) as [->|Hne].
  - rewrite lookup_insert_eq in Hlk. injection Hlk as <-.
    by apply radio_letter.
  - rewrite lookup_insert_ne in Hlk by assumption. eauto.
Qed.

Lemma exam_taking_letters w s s' :
  radio_answer w ∈ radio_options -> letters_only (answers s) ->
  exam_taking w s = Ok s' -> letters_only (answers s').
Proof.
  intros Hin Hinv. unfold exam_taking.
  destruct (questions s) as [qs|]; simpl; [|discriminate].
  destruct (start_time s); simpl; [|discriminate].
  case_bool_decide; simpl; [discriminate|].
  destruct (_ || _); simpl; [discriminate|].
  destruct (py_index qs (current_question s)); simpl; [|discriminate].
  pose proof (record_answer_letters (current_question s) _ s Hin Hinv) as H1.
  repeat (case_match; simpl); intros [= <-]; exact H1.
Qed.

Lemma results_page_letters w s s' :
  letters_only (answers s) ->
  results_page w s = Ok s' -> letters_only (answers s').
Proof.
  intros Hinv. unfold results_page.
  destruct (questions s); simpl; [|discriminate].
  destruct (real_answer_key s); simpl; [|discriminate].
  case_bool_decide; intros [= <-]; [|assumption].
  intros i v Hlk. simpl in Hlk. by rewrite lookup_empty in Hlk.
Qed.

Lemma run_letters w s s' :
  radio_answer w ∈ radio_options -> letters_only (answers s) ->
  run w s = Ok s' -> letters_only (answers s').
Proof.
  intros Hin Hinv. unfold run.
  destruct (sidebar_start w s) as [s1|] eqn:Hside.
  - intros [= <-]. unfold sidebar_start in Hside.
    repeat case_match; try discriminate. injection Hside as <-. exact Hinv.
  - unfold main_page. repeat case_match.
    + by intros [= <-].
    + by apply exam_taking_letters.
    + by apply results_page_letters.
    + by intros [= <-].
Qed.

Lemma reachable_letters s : reachable s -> letters_only (answers s).
Proof.
  induction 1 as [|s s' _ IH (w & Hin & Hrun)].
  - intros i v Hlk. simpl in Hlk. by rewrite lookup_empty in Hlk.
  - eapply run_letters; eassumption.
Qed.

Lemma spec_row_unattempted_iff recorded key i :
  "Unattempted"%string ∉ option_letters ->
  letters_only recorded ->
  status (spec_row recorded key i) = "Unattempted"%string
  <-> recorded !! Z.of_nat i = None.
Proof.
  intros Hnot Hinv. unfold spec_row, classify, dict_get; simpl.
  destruct (recorded !! Z.of_nat i) as [v|] eqn:Hlk.
  - assert (v ≠ "Unattempted"%string) as Hv
      by (intros ->; apply Hnot; eauto).
    rewrite (bool_decide_eq_false_2 _ Hv).
    split; [|discriminate].
    repeat case_bool_decide; simpl; discriminate.
  - rewrite bool_decide_eq_true_2 by reflexivity. simpl. tauto.
Qed.

Lemma unattempted_not_letter : "Unattempted"%string ∉ option_letters.
Proof.
  unfold option_letters. intros H.
  repeat (apply elem_of_cons in H as [H|H]; [discriminate H|]).
  by apply elem_of_nil in H.
Qed.

Lemma first_answered_reachable : reachable first_answered.
Proof.
  apply reach_step with just_started.
  - apply reach_step with fresh; [apply reach_fresh|].
    exists start_widgets. split; [|reflexivity].
    simpl. apply list_elem_of_here.
  - exists (idle_with "A"). split; [|by vm_compute].
    simpl. apply list_elem_of_further, list_elem_of_here.
Qed.

(** C3 (as stated, refuted). With question 1 answered "A", a run whose radio
    shows "Unattempted" leaves the session as it was: the entry for index 0
    is still "A", it has not been removed. *)
Lemma unattempted_does_not_remove :
  run (idle_with "Unattempted") answered_first = Ok answered_first
  /\ answers (record_answer 0 "Unattempted" answered_first) !! 0
     = Some "A"%string
  /\ answers (record_answer 0 "Unattempted" answered_first)
     ≠ delete 0 (answers answered_first).
Proof.
  split; [reflexivity|]. split; [reflexivity|].
  intros H. apply (f_equal (fun m => m !! 0)) in H.
  rewrite lookup_delete_eq in H. discriminate H.
Qed.

(** C3 (amended). While the test is in progress, recording "Unattempted"
    leaves the recorded answers as they are (an existing entry stays), and
    recording any other option, "A" to "D", upserts the entry; the phase is
    unchanged in both cases. *)
Theorem record_answer_keeps_or_upserts (idx : Z) (option : string) (s : session) :
  exam_started s = true -> exam_submitted s = false ->
  let s' := record_answer idx option s in
  (option = "Unattempted"%string -> answers s' = answers s)
  /\ (option ≠ "Unattempted"%string ->
      answers s' = <[idx := option]> (answers s))
  /\ exam_started s' = true /\ exam_submitted s' = false.
Proof.
  intros Hst Hsub s'. subst s'.
  destruct (record_answer_phase idx option s) as [-> ->].
  rewrite record_answer_answers.
  repeat split; try assumption; intros Ho; case_bool_decide; congruence.
Qed.

Lemma record_answer_keeps_or_upserts_witness :
  answers (record_answer 0 "B" answered_first)
  = <[0 := "B"%string]> (answers answered_first)
  /\ exam_started (record_answer 0 "B" answered_first) = true
  /\ exam_submitted (record_answer 0 "B" answered_first) = false.
Proof.
  destruct (record_answer_keeps_or_upserts 0 "B" answered_first
              eq_refl eq_refl) as (_ & Hupsert & Hphase).
  split; [|exact Hphase].
  apply Hupsert. discriminate.
Defined.

(** C10. In every session the script reaches, every stored answer is one of
    "A", "B", "C", "D" and never "Unattempted"; hence the scorer gives a
    question the status Unattempted exactly when its index is absent from
    the recorded answers. *)
Theorem stored_answers_are_letters (s : session) :
  reachable s ->
  letters_only (answers s)
  /\ (forall i v, answers s !! i = Some v -> v ≠ "Unattempted"%string)
  /\ (forall (qs : list string) (key : gmap pykey string) (i : nat),
        (i < length qs)%nat ->
        exists row,
          results_data (score_loop qs (answers s) key) !! i = Some row
          /\ (status row = "Unattempted"%string
              <-> answers s !! Z.of_nat i = None)).
Proof.
  intros Hr. pose proof (reachable_letters s Hr) as Hinv.
  split; [assumption|]. split.
  - intros i v Hlk ->. apply unattempted_not_letter. eauto.
  - intros qs key i Hi.
    destruct (score_loop_spec qs (answers s) key) as (-> & _).
    exists (spec_row (answers s) key i). split.
    + rewrite list_lookup_fmap, lookup_seq_lt by assumption. reflexivity.
    + by apply spec_row_unattempted_iff; [apply unattempted_not_letter|].
Qed.

Lemma stored_answers_are_letters_witness :
  letters_only (answers first_answered)
  /\ answers first_answered !! 0 = Some "A"%string.
Proof.
  split.
  - exact (proj1 (stored_answers_are_letters first_answered
                    first_answered_reachable)).
  - reflexivity.
Defined.

(** ** Extraction *)

Lemma findall_from_skip k s : findall_from k s = findall_from 0 (drop k s).
Proof.
  revert k. induction s as [|c t IH]; intros [|k]; simpl; auto.
Qed.

Lemma markers_from_skip k pos s :
  markers_from k pos s = markers_from 0 (pos + k) (drop k s).
Proof.
  revert k pos. induction s as [|c t IH]; intros [|k] pos; simpl;
    rewrite ?Nat.add_0_r; auto.
  rewrite IH. f_equal. lia.
Qed.

Lemma span_digits_le s : (span_digits s <= length s)%nat.
Proof. induction s as [|c t IH]; simpl; [lia|]. destruct (is_digit c); simpl; lia. Qed.

Lemma marker_len_bounds s m :
  marker_len s = Some m -> (3 <= m <= length s)%nat.
Proof.
  unfold marker_len. destruct (span_digits s) as [|d] eqn:Hd; [discriminate|].
  destruct (drop (S d) s) as [|p [|w r]] eqn:Hdrop; try discriminate.
  destruct (is_dot p && is_space w); [|discriminate].
  intros [= <-]. apply (f_equal length) in Hdrop.
  rewrite length_drop in Hdrop. simpl in Hdrop. lia.
Qed.

Lemma lazy_body_le s : (lazy_body s <= length s)%nat.
Proof.
  induction s as [|c t IH]; simpl.
  - destruct (lookahead []); lia.
  - destruct (lookahead (c :: t)); simpl; lia.
Qed.

Lemma lookahead_after_lazy s : lookahead (drop (lazy_body s) s) = true.
Proof.
  induction s as [|c t IH]; simpl.
  - reflexivity.
  - destruct (lookahead (c :: t)) eqn:Hl; simpl; assumption.
Qed.

Lemma lookahead_false_no_marker s : lookahead s = false -> marker_len s = None.
Proof. unfold lookahead. destruct (marker_len s); [discriminate|reflexivity]. Qed.

(** No occurrence of the boundary pattern starts inside the lazy part. *)
Lemma markers_from_lazy pos s :
  markers_from 0 pos s
  = markers_from 0 (pos + lazy_body s) (drop (lazy_body s) s).
Proof.
  revert pos. induction s as [|c t IH]; intros pos; [reflexivity|].
  cbn [lazy_body]. destruct (lookahead (c :: t)) eqn:Hl.
  - rewrite Nat.add_0_r. reflexivity.
  - cbn [drop markers_from].
    rewrite (lookahead_false_no_marker _ Hl), IH. f_equal. lia.
Qed.

Lemma findall_from_marker s m :
  marker_len s = Some m ->
  let n := (m + lazy_body (drop m s))%nat in
  findall_from 0 s = take n s :: findall_from 0 (drop n s).
Proof.
  intros Hm n. pose proof (marker_len_bounds _ _ Hm) as Hb.
  destruct s as [|c t]; [simpl in Hb; lia|].
  cbn [findall_from]. unfold match_at. rewrite Hm. fold n.
  rewrite findall_from_skip. destruct n as [|n'] eqn:Hn; [lia|].
  simpl. rewrite Nat.sub_0_r. reflexivity.
Qed.

Lemma markers_from_marker pos s m :
  marker_len s = Some m ->
  let n := (m + lazy_body (drop m s))%nat in
  markers_from 0 pos s = pos :: markers_from 0 (pos + n) (drop n s).
Proof.
  intros Hm n. pose proof (marker_len_bounds _ _ Hm) as Hb.
  destruct s as [|c t]; [simpl in Hb; lia|].
  cbn [markers_from]. rewrite Hm. f_equal.
  rewrite markers_from_skip.
  replace (drop (m - 1) t) with (drop m (c :: t))
    by (destruct m; [lia|]; simpl; by rewrite Nat.sub_0_r).
  rewrite markers_from_lazy. subst n. rewrite drop_drop. f_equal. lia.
Qed.

Lemma lstrip_all_space s : forallb is_space s = true -> lstrip s = [].
Proof.
  induction s as [|c t IH]; simpl; [reflexivity|].
  destruct (is_space c); simpl; [assumption|discriminate].
Qed.

Lemma rstrip_app_space s ws :
  forallb is_space ws = true -> rstrip (s ++ ws) = rstrip s.
Proof.
  intros Hws. unfold rstrip. f_equal. rewrite rev_app_distr.
  assert (forallb is_space (rev ws) = true) as Hr.
  { apply forallb_forall. intros x Hx. apply in_rev in Hx.
    revert x Hx. by apply forallb_forall. }
  clear Hws. induction (rev ws) as [|c t IH]; simpl; [reflexivity|].
  simpl in Hr. apply andb_true_iff in Hr as [-> Ht]. auto.
Qed.

Lemma strip_app_space s ws :
  forallb is_space ws = true -> strip (s ++ ws) = strip s.
Proof. intros H. unfold strip. by rewrite rstrip_app_space. Qed.

Lemma at_dollar_space s : at_dollar s = true -> forallb is_space s = true.
Proof.
  destruct s as [|c [|d t]]; simpl; try discriminate; [reflexivity|].
  unfold is_newline, is_space. intros H. apply Nat.eqb_eq in H. by rewrite H.
Qed.

Lemma at_dollar_no_match s :
  at_dollar s = true -> marker_len s = None ->
  findall_from 0 s = [] /\ forall pos, markers_from 0 pos s = [].
Proof.
  destruct s as [|c [|d t]]; simpl; try discriminate; intros _ Hm.
  - by split.
  - unfold match_at. rewrite Hm. by split.
Qed.

Lemma sublist_suffix (pre s : text) n :
  (n <= length s)%nat ->
  sublist (length pre) (length pre + n) (pre ++ s) = take n s.
Proof.
  intros Hn. unfold sublist.
  rewrite drop_app_length. f_equal. lia.
Qed.

Lemma sublist_to_end (pre s : text) :
  sublist (length pre) (length (pre ++ s)) (pre ++ s) = s.
Proof.
  unfold sublist. rewrite drop_app_length, length_app.
  apply take_ge. lia.
Qed.

(** The matches of the whole pattern are, up to trimming, the pieces of the
    text between consecutive occurrences of the boundary pattern. *)
Lemma findall_cut_suffix (n : nat) :
  forall (s pre : text), (length s <= n)%nat ->
  map strip (findall_from 0 s)
  = map strip (cut (markers_from 0 (length pre) s) (pre ++ s)).
Proof.
  induction n as [|n IH]; intros s pre Hlen.
  { destruct s; [reflexivity|simpl in Hlen; lia]. }
  destruct s as [|c t]; [reflexivity|].
  destruct (marker_len (c :: t)) as [m|] eqn:Hm.
  - pose proof (marker_len_bounds _ _ Hm) as Hb.
    rewrite (findall_from_marker _ _ Hm), (markers_from_marker _ _ _ Hm).
    set (k := (m + lazy_body (drop m (c :: t)))%nat).
    assert (k <= length (c :: t))%nat as Hk.
    { subst k. pose proof (lazy_body_le (drop m (c :: t))) as Hl.
      rewrite length_drop in Hl. lia. }
    assert (lookahead (drop k (c :: t)) = true) as Hla.
    { subst k. rewrite <- drop_drop. apply lookahead_after_lazy. }
    set (r := drop k (c :: t)) in *.
    assert (c :: t = take k (c :: t) ++ r) as Hsplit
      by (subst r; by rewrite take_drop).
    assert (length (pre ++ take k (c :: t)) = (length pre + k)%nat) as Hpre.
    { rewrite length_app, length_take. lia. }
    assert (length r <= n)%nat as Hr.
    { subst r. rewrite length_drop. simpl in *. lia. }
    cbn [cut map]. unfold lookahead in Hla.
    destruct (marker_len r) as [m'|] eqn:Hm'.
    + f_equal.
      * rewrite (markers_from_marker _ _ _ Hm'). cbn [hd].
        by rewrite sublist_suffix.
      * rewrite (IH r (pre ++ take k (c :: t)) Hr).
        rewrite Hpre, <- app_assoc, <- Hsplit. reflexivity.
    + destruct (at_dollar_no_match r Hla Hm') as [-> ->]. cbn [hd cut map].
      f_equal. rewrite sublist_to_end.
      rewrite Hsplit at 2. rewrite strip_app_space; [reflexivity|].
      by apply at_dollar_space.
  - cbn [findall_from markers_from]. unfold match_at. rewrite Hm.
    rewrite (IH t (pre ++ [c])) by (simpl in Hlen; lia).
    rewrite length_app, <- app_assoc. simpl.
    replace (length pre + 1)%nat with (S (length pre)) by lia. reflexivity.
Qed.

Lemma findall_cut (s : text) :
  map strip (findall s) = map strip (cut (markers s) s).
Proof. exact (findall_cut_suffix (length s) s [] (le_n _)). Qed.

Lemma length_cut ps s : length (cut ps s) = length ps.
Proof. induction ps; simpl; auto. Qed.

Lemma findall_count (s : text) : length (findall s) = length (markers s).
Proof.
  pose proof (f_equal length (findall_cut s)) as H.
  by rewrite !length_map, length_cut in H.
Qed.

(** The occurrences are listed from left to right. *)
Lemma markers_from_sorted s : forall k pos,
  Forall (fun p => pos + k <= p)%nat (markers_from k pos s)
  /\ StronglySorted lt (markers_from k pos s).
Proof.
  induction s as [|c t IH]; intros k pos; [split; constructor|].
  cbn [markers_from]. destruct k as [|k].
  - destruct (marker_len (c :: t)) as [m|].
    + destruct (IH (m - 1)%nat (S pos)) as [Hall Hs]. split.
      * constructor; [lia|]. eapply Forall_impl; [exact Hall|].
        intros p Hp. simpl in Hp. lia.
      * constructor; [assumption|]. eapply Forall_impl; [exact Hall|].
        intros p Hp. simpl in Hp. lia.
    + destruct (IH 0%nat (S pos)) as [Hall Hs]. split; [|assumption].
      eapply Forall_impl; [exact Hall|]. intros p Hp. simpl in Hp. lia.
  - destruct (IH k (S pos)) as [Hall Hs]. split; [|assumption].
    eapply Forall_impl; [exact Hall|]. intros p Hp. simpl in Hp. lia.
Qed.

Lemma extract_questions_eq (txt : string) :
  extract_questions_from_text txt =
  match findall (list_ascii_of_string txt) with
  | [] => [advisory]
  | _ :: _ =>
      map string_of_list_ascii
        (map strip (findall (list_ascii_of_string txt)))
  end.
Proof.
  unfold extract_questions_from_text.
  destruct (findall (list_ascii_of_string txt)); [reflexivity|].
  by rewrite map_map.
Qed.

Lemma extract_questions_nonempty (txt : string) :
  extract_questions_from_text txt ≠ [].
Proof.
  rewrite extract_questions_eq.
  destruct (findall (list_ascii_of_string txt)); discriminate.
Qed.



(** ** Answer key *)

Lemma dict_of_pairs_lookup (pairs : list (pykey * string))
    (d : gmap pykey string) (k : pykey) :
  fold_left (fun d kv => <[kv.1 := kv.2]> d) pairs d !! k
  = match last_row k pairs with
    | Some v => Some v
    | None => d !! k
    end.
Proof.
  revert d. induction pairs as [|[q a] rest IH]; intros d; [reflexivity|].
  cbn [fold_left last_row]. rewrite IH.
  destruct (last_row k rest); [reflexivity|]. cbn [fst snd].
  destruct (decide (q = k)) as [->|Hne].
  - apply lookup_insert_eq.
  - by apply lookup_insert_ne.
Qed.

Lemma last_row_fmap (rows : list (Z * string)) n :
  last_row (KInt n) (map (fun r => (KInt r.1, normalise r.2)) rows)
  = normalise <$> last_row n rows.
Proof.
  induction rows as [|[q a] rest IH]; [reflexivity|].
  cbn [map last_row fst snd]. rewrite IH.
  destruct (last_row n rest); [reflexivity|]. simpl.
  destruct (decide (q = n)) as [->|Hne].
  - by rewrite decide_True.
  - rewrite decide_False; [reflexivity|]. congruence.
Qed.

Lemma last_row_fmap_str (rows : list (Z * string)) t :
  last_row (KStr t) (map (fun r => (KInt r.1, normalise r.2)) rows) = None.
Proof.
  induction rows as [|[q a] rest IH]; [reflexivity|].
  cbn [map last_row fst snd]. rewrite IH. by rewrite decide_False.
Qed.

Lemma last_row_elem {K V} `{EqDecision K} (k : K) (rows : list (K * V)) v :
  last_row k rows = Some v -> (k, v) ∈ rows.
Proof.
  induction rows as [|[q a] rest IH]; [discriminate|].
  cbn [last_row]. destruct (last_row k rest) as [v'|].
  - intros [= <-]. apply list_elem_of_further. by apply IH.
  - destruct (decide (q = k)) as [->|]; [|discriminate].
    intros [= <-]. apply list_elem_of_here.
Qed.

Lemma zip_rows (rows : list (Z * string)) :
  zip (map KInt rows.*1) (map (fun v => str_strip (str_upper v)) rows.*2)
  = map (fun r => (KInt r.1, normalise r.2)) rows.
Proof.
  induction rows as [|[q a] rest IH]; [reflexivity|].
  simpl. by rewrite <- IH.
Qed.

Lemma load_answer_key_rows rows more :
  load_answer_key (Ok (frame_of_rows rows more))
  = (dict_of_pairs (map (fun r => (KInt r.1, normalise r.2)) rows), None).
Proof.
  unfold load_answer_key, frame_of_rows, key_dict_of. simpl.
  by rewrite zip_rows.
Qed.

Lemma last_rev_head (l : text) : last (rev l) = head l.
Proof. destruct l as [|c t]; [reflexivity|]. simpl. apply last_snoc. Qed.

Lemma lstrip_head s c : head (lstrip s) = Some c -> is_space c = false.
Proof.
  induction s as [|d t IH]; simpl; [discriminate|].
  destruct (is_space d) eqn:Hd; [assumption|].
  simpl. by intros [= <-].
Qed.

Lemma lstrip_suffix s : exists pre, s = pre ++ lstrip s.
Proof.
  induction s as [|d t [pre IH]]; simpl; [by exists []|].
  destruct (is_space d).
  - exists (d :: pre). simpl. by rewrite <- IH.
  - by exists [].
Qed.

Lemma rstrip_last s c : last (rstrip s) = Some c -> is_space c = false.
Proof. unfold rstrip. rewrite last_rev_head. apply lstrip_head. Qed.

Lemma strip_trimmed s c :
  head (strip s) = Some c \/ last (strip s) = Some c -> is_space c = false.
Proof.
  unfold strip. intros [H|H]; [by apply lstrip_head in H|].
  apply (rstrip_last s). destruct (lstrip_suffix (rstrip s)) as [pre Hpre].
  rewrite Hpre, last_app, H. reflexivity.
Qed.

Lemma upper_char_not_lower c : lowercase (upper_char c) = false.
Proof. destruct c as [[] [] [] [] [] [] [] []]; reflexivity. Qed.

Lemma forallb_lstrip (P : ascii -> bool) s :
  forallb P s = true -> forallb P (lstrip s) = true.
Proof.
  induction s as [|d t IH]; simpl; [auto|].
  destruct (is_space d); [|auto].
  intros H. apply andb_true_iff in H as [_ H]. auto.
Qed.

Lemma forallb_rev (P : ascii -> bool) s :
  forallb P s = true -> forallb P (rev s) = true.
Proof.
  rewrite !forallb_forall. intros H x Hx. apply H. by apply in_rev.
Qed.

Lemma forallb_strip (P : ascii -> bool) s :
  forallb P s = true -> forallb P (strip s) = true.
Proof.
  intros H. unfold strip, rstrip.
  by apply forallb_lstrip, forallb_rev, forallb_lstrip, forallb_rev.
Qed.

Lemma normalise_chars a :
  list_ascii_of_string (normalise a)
  = strip (upper (list_ascii_of_string a)).
Proof.
  unfold normalise, str_strip, str_upper.
  by rewrite !list_ascii_of_string_of_list_ascii.
Qed.

Lemma normalise_upper a : is_upper (normalise a).
Proof.
  unfold is_upper. rewrite normalise_chars. apply forallb_strip.
  unfold upper. induction (list_ascii_of_string a) as [|c t IH];
    [reflexivity|].
  simpl. by rewrite upper_char_not_lower, IH.
Qed.

Lemma normalise_trimmed a : is_trimmed (normalise a).
Proof. unfold is_trimmed. rewrite normalise_chars. apply strip_trimmed. Qed.

Example answer_key_duplicates :
  (load_answer_key
     (Ok (frame_of_rows [(1, " a"); (2, "b "); (1, "c")]%string []))).1
  = <[KInt 2 := "B"%string]> (<[KInt 1 := "C"%string]> ∅).
Proof. by vm_compute. Qed.

(** A source that cannot be read, that has fewer than two columns or whose
    second column is not text gives the empty key and a diagnostic. *)
Lemma load_answer_key_recovers :
  (forall e, load_answer_key (Raise e) = (∅, Some e))
  /\ load_answer_key (Ok []) = (∅, Some IndexError)
  /\ (forall c, load_answer_key (Ok [c]) = (∅, Some IndexError))
  /\ (forall c cells more,
        load_answer_key (Ok (c :: IntCol cells :: more))
        = (∅, Some AttributeError)).
Proof. repeat split. Qed.

(** C8 (the code departs from the claim). A key file whose first column is
    not numeric ("Q1", "Q2") is accepted without any diagnostic, and the
    mapping returned is not empty: its keys are the strings of the first
    column, which no question number ever matches. *)
Theorem nonnumeric_first_column_accepted :
  let parsed :=
    load_answer_key (Ok [ObjCol ["Q1"; "Q2"]; ObjCol ["a"; "b"]]%string) in
  parsed.2 = None
  /\ parsed.1 ≠ ∅
  /\ parsed.1 !! KStr "Q1" = Some "A"%string
  /\ parsed.1 !! KStr "Q2" = Some "B"%string
  /\ (forall n : Z, parsed.1 !! KInt n = None).
Proof.
  cbv zeta. split; [reflexivity|]. split.
  - intros H. apply (f_equal (fun m => m !! KStr "Q1")) in H.
    vm_compute in H. discriminate H.
  - split; [by vm_compute|]. split; [by vm_compute|].
    intros n. unfold load_answer_key, key_dict_of. simpl.
    unfold dict_of_pairs. simpl.
    by rewrite !lookup_insert_ne, lookup_empty.
Qed.

(** ** History *)



Section HistoryRoundTrip.
Variable File : Type.
Variable to_csv : frame -> File.
Variable read_csv : File -> res frame.

(** The store is a faithful black box: reading a file gives back the
    table that was written to it. *)
Hypothesis read_back : forall df, read_csv (to_csv df) = Ok df.

End HistoryRoundTrip.


(** * Further properties *)

(** ** The session between runs *)


(** What a successful run of the exam-taking page did. *)
Lemma exam_taking_inv w s s' :
  exam_taking w s = Ok s' ->
  exists qs,
    questions s = Some qs
    /\ let idx := current_question s in
       let s1 := record_answer idx (radio_answer w) s in
       (s' = set_current_question (idx - 1) s1 /\ 0 < idx
        /\ clicked w = Previous)
       \/ (s' = set_current_question (idx + 1) s1
           /\ idx < Z.of_nat (length qs) - 1 /\ clicked w = Next)
       \/ (s' = set_exam_submitted s1
           /\ Z.of_nat (length qs) - 1 <= idx /\ clicked w = SubmitExam)
       \/ s' = s1.
Proof.
  unfold exam_taking.
  destruct (questions s) as [qs|]; simpl; [|discriminate].
  destruct (start_time s); simpl; [|discriminate].
  case_bool_decide as Hlen; simpl; [discriminate|].
  destruct (_ || _); simpl; [discriminate|].
  destruct (py_index qs (current_question s)); simpl; [|discriminate].
  assert (forall r, current_question (record_answer (current_question s) r s)
                    = current_question s) as Hcur
    by (intros r; unfold record_answer; by case_bool_decide).
  intros Hrun. exists qs. split; [reflexivity|]. cbv zeta.
  rewrite Hcur in Hrun.
  destruct (0 <? current_question s) eqn:Hpos; simpl in Hrun.
  - case_bool_decide as Hprev.
    + left. injection Hrun as <-. apply Z.ltb_lt in Hpos. auto.
    + destruct (current_question s <? Z.of_nat (length qs) - 1) eqn:Hlt.
      * case_bool_decide as Hclick; injection Hrun as <-; [|by repeat right].
        right; left. apply Z.ltb_lt in Hlt. auto.
      * case_bool_decide as Hclick; injection Hrun as <-; [|by repeat right].
        right; right; left. apply Z.ltb_ge in Hlt. auto.
  - destruct (current_question s <? Z.of_nat (length qs) - 1) eqn:Hlt.
    + case_bool_decide as Hclick; injection Hrun as <-; [|by repeat right].
      right; left. apply Z.ltb_lt in Hlt. auto.
    + case_bool_decide as Hclick; injection Hrun as <-; [|by repeat right].
      right; right; left. apply Z.ltb_ge in Hlt. auto.
Qed.

Lemma record_answer_fields idx a s :
  let s1 := record_answer idx a s in
  current_question s1 = current_question s
  /\ exam_started s1 = exam_started s
  /\ exam_submitted s1 = exam_submitted s
  /\ start_time s1 = start_time s
  /\ questions s1 = questions s
  /\ real_answer_key s1 = real_answer_key s.
Proof. unfold record_answer. case_bool_decide; repeat split. Qed.

Lemma record_answer_keys idx a s n :
  0 <= idx < n ->
  (forall i v, answers s !! i = Some v -> 0 <= i < n) ->
  forall i v, answers (record_answer idx a s) !! i = Some v -> 0 <= i < n.
Proof.
  intros Hidx Hin i v. rewrite record_answer_answers.
  case_bool_decide; [apply Hin|].
  destruct (decide (idx = i)) as [<-|Hne]; [auto|].
  rewrite lookup_insert_ne by assumption. apply Hin.
Qed.

Lemma sidebar_start_inv w s s' :
  sidebar_start w s = Some s' ->
  exam_started s = false
  /\ exists pdf key, uploaded_pdf w = Some pdf /\ uploaded_key w = Some key
       /\ clicked w = StartTest /\ s' = start_exam pdf key (clock w) s.
Proof.
  unfold sidebar_start.
  destruct (uploaded_pdf w) as [pdf|]; [|discriminate].
  destruct (uploaded_key w) as [key|]; [|discriminate].
  destruct (exam_started s); simpl; [discriminate|].
  case_bool_decide; [|discriminate]. intros [= <-].
  split; [reflexivity|]. by exists pdf, key.
Qed.

Lemma results_page_inv w s s' :
  results_page w s = Ok s' -> s' = fresh \/ s' = s.
Proof.
  unfold results_page.
  destruct (questions s); simpl; [|discriminate].
  destruct (real_answer_key s); simpl; [|discriminate].
  case_bool_decide; intros [= <-]; auto.
Qed.

Lemma extract_pdf_length pdf :
  0 < Z.of_nat (length (extract_questions_from_pdf pdf)).
Proof.
  unfold extract_questions_from_pdf.
  pose proof (extract_questions_nonempty (join_pages EmptyString pdf)) as H.
  destruct (extract_questions_from_text _); [congruence|simpl; lia].
Qed.

Lemma well_formed_fresh : well_formed fresh.
Proof. reflexivity. Qed.

Lemma well_formed_started s :
  exam_started s = true -> well_formed s ->
  exists qs key t,
    questions s = Some qs /\ real_answer_key s = Some key
    /\ start_time s = Some t
    /\ 0 <= current_question s < Z.of_nat (length qs)
    /\ (forall i v, answers s !! i = Some v -> 0 <= i < Z.of_nat (length qs)).
Proof. unfold well_formed. by intros ->. Qed.

Lemma run_well_formed w s s' :
  well_formed s -> run w s = Ok s' -> well_formed s'.
Proof.
  intros Hwf. unfold run.
  destruct (sidebar_start w s) as [s1|] eqn:Hside.
  - intros [= <-]. apply sidebar_start_inv in Hside
      as (Hns & pdf & key & _ & _ & _ & ->).
    unfold well_formed in Hwf. rewrite Hns in Hwf. subst s.
    unfold well_formed. simpl.
    exists (extract_questions_from_pdf pdf), (load_answer_key key).1, (clock w).
    repeat split; try reflexivity; try lia.
    + apply extract_pdf_length.
    + rewrite lookup_empty in H. discriminate.
    + rewrite lookup_empty in H. discriminate.
  - unfold main_page. destruct (exam_started s) eqn:Hst; simpl.
    + destruct (exam_submitted s) eqn:Hsub; simpl.
      * intros H. apply results_page_inv in H as [->| ->];
          [apply well_formed_fresh|assumption].
      * intros H. apply exam_taking_inv in H as (qs & Hqs & Hcases).
        destruct (well_formed_started s Hst Hwf)
          as (qs' & key & t & Hq & Hk & Ht & Hidx & Hkeys).
        rewrite Hqs in Hq. injection Hq as <-.
        pose proof (record_answer_fields (current_question s)
                      (radio_answer w) s) as (Hc & Hs & _ & Ht' & Hq' & Hk').
        pose proof (record_answer_keys (current_question s) (radio_answer w)
                      s _ Hidx Hkeys) as Hkeys'.
        cbv zeta in Hcases.
        destruct Hcases as [(-> & Hpos & _)|[(-> & Hlt & _)|[(-> & _ & _)| ->]]];
          unfold well_formed; simpl; rewrite Hs, Hst;
          exists qs, key, t; rewrite Hq', Hk', Ht', ?Hc;
          repeat split; try assumption; try lia;
          try (by eapply Hkeys'); apply Hidx.
    + destruct (exam_submitted s) eqn:Hsub; simpl.
      * intros H. apply results_page_inv in H as [->| ->];
          [apply well_formed_fresh|assumption].
      * by intros [= <-].
Qed.

Lemma reachable_well_formed s : reachable s -> well_formed s.
Proof.
  induction 1 as [|s s' _ IH (w & _ & Hrun)];
    [apply well_formed_fresh|by eapply run_well_formed].
Qed.

(** X1. While a test is running or submitted, the paper is present and not
    empty, the current question is one of its questions, and every recorded
    answer belongs to one of its questions. *)
Theorem session_position_in_range (s : session) :
  reachable s -> exam_started s = true ->
  exists qs,
    questions s = Some qs
    /\ 0 <= current_question s < Z.of_nat (length qs)
    /\ (forall i v, answers s !! i = Some v -> 0 <= i < Z.of_nat (length qs)).
Proof.
  intros Hr Hst.
  destruct (well_formed_started s Hst (reachable_well_formed s Hr))
    as (qs & key & t & Hq & _ & _ & Hidx & Hkeys).
  exists qs. auto.
Qed.

Lemma session_position_in_range_witness :
  exists qs,
    questions first_answered = Some qs
    /\ 0 <= current_question first_answered < Z.of_nat (length qs)
    /\ (forall i v, answers first_answered !! i = Some v ->
                    0 <= i < Z.of_nat (length qs)).
Proof.
  exact (session_position_in_range first_answered first_answered_reachable
           eq_refl).
Defined.


(** X3. A test always starts blank: the run that starts it leaves no
    recorded answer, shows the first question, is not submitted, and holds
    the questions extracted from the uploaded paper and the key parsed from
    the uploaded key file. *)
Theorem test_starts_blank (s s' : session) (w : widgets) :
  reachable s -> exam_started s = false -> run w s = Ok s' ->
  exam_started s' = true ->
  answers s' = ∅ /\ current_question s' = 0 /\ exam_submitted s' = false
  /\ exists pdf key,
       uploaded_pdf w = Some pdf /\ uploaded_key w = Some key
       /\ questions s' = Some (extract_questions_from_pdf pdf)
       /\ real_answer_key s' = Some (load_answer_key key).1.
Proof.
  intros Hr Hns Hrun Hst'.
  pose proof (reachable_well_formed s Hr) as Hwf.
  unfold well_formed in Hwf. rewrite Hns in Hwf. subst s.
  unfold run in Hrun.
  destruct (sidebar_start w fresh) as [s1|] eqn:Hside.
  - injection Hrun as <-.
    apply sidebar_start_inv in Hside as (_ & pdf & key & Hp & Hk & _ & ->).
    repeat split. by exists pdf, key.
  - simpl in Hrun. injection Hrun as <-. discriminate Hst'.
Qed.

Lemma test_starts_blank_witness :
  answers just_started = ∅ /\ current_question just_started = 0.
Proof.
  destruct (test_starts_blank fresh just_started start_widgets
              reach_fresh eq_refl eq_refl eq_refl) as (Ha & Hc & _).
  split; assumption.
Defined.

(** X4. Once a test is started the paper, the key and the start time stay
    as they are in every later run, new uploads and the start button
    included; they go only when "Take Another Test" is pressed on the
    results page, and then the run gives the fresh session. *)
Theorem paper_fixed_during_test (s s' : session) (w : widgets) :
  exam_started s = true -> run w s = Ok s' ->
  ((s' = fresh /\ exam_submitted s = true /\ clicked w = TakeAnother)
   \/ (exam_started s' = true /\ questions s' = questions s
       /\ real_answer_key s' = real_answer_key s
       /\ start_time s' = start_time s))
  /\ (exam_submitted s = true -> clicked w = TakeAnother -> s' = fresh)
  /\ (exam_submitted s = false \/ clicked w <> TakeAnother ->
      exam_started s' = true /\ questions s' = questions s
      /\ real_answer_key s' = real_answer_key s
      /\ start_time s' = start_time s).
Proof.
  intros Hst. unfold run.
  destruct (sidebar_start w s) as [s1|] eqn:Hside.
  { apply sidebar_start_inv in Hside as (Hns & _). congruence. }
  unfold main_page. rewrite Hst. simpl.
  destruct (exam_submitted s) eqn:Hsub; simpl.
  - unfold results_page.
    destruct (questions s) eqn:Hq; simpl; [|discriminate].
    destruct (real_answer_key s) eqn:Hk; simpl; [|discriminate].
    case_bool_decide as Hclick; intros [= <-].
    + split; [left; by repeat split|]. split; [reflexivity|].
      intros [Hf|Hne]; [discriminate Hf|contradiction].
    + split; [right; by repeat split|]. split; [contradiction|].
      intros _. by repeat split.
  - intros Hrun. apply exam_taking_inv in Hrun as (qs & Hqs & Hcases).
    pose proof (record_answer_fields (current_question s) (radio_answer w) s)
      as (_ & Hs & _ & Ht' & Hq' & Hk').
    cbv zeta in Hcases.
    assert (exam_started s' = true /\ questions s' = questions s
            /\ real_answer_key s' = real_answer_key s
            /\ start_time s' = start_time s) as Hkept.
    { destruct Hcases as [(-> & _)|[(-> & _)|[(-> & _)| ->]]]; simpl;
        rewrite Hs, Hq', Hk', Ht'; auto. }
    split; [by right|]. split; [discriminate|]. intros _. exact Hkept.
Qed.

Lemma paper_fixed_during_test_witness :
  questions first_answered = questions just_started
  /\ fresh = fresh.
Proof.
  split.
  - destruct (paper_fixed_during_test just_started first_answered
                (idle_with "A") eq_refl eq_refl) as (_ & _ & Hkept).
    destruct Hkept as (_ & Hq & _); [by left|exact Hq].
  - destruct (paper_fixed_during_test
                (set_exam_submitted first_answered) fresh (press TakeAnother)
                eq_refl eq_refl) as (_ & Hreset & _).
    exact (Hreset eq_refl eq_refl).
Defined.

(** X5. After submission the session is frozen: a run leaves it exactly as
    it was, answers included, unless "Take Another Test" is pressed, and
    then the run gives the fresh session. *)
Theorem submitted_session_is_frozen (s s' : session) (w : widgets) :
  exam_started s = true -> exam_submitted s = true -> run w s = Ok s' ->
  (s' = s \/ (s' = fresh /\ clicked w = TakeAnother))
  /\ (clicked w = TakeAnother -> s' = fresh)
  /\ (clicked w <> TakeAnother -> s' = s).
Proof.
  intros Hst Hsub. unfold run.
  destruct (sidebar_start w s) as [s1|] eqn:Hside.
  { apply sidebar_start_inv in Hside as (Hns & _). congruence. }
  unfold main_page. rewrite Hst, Hsub. simpl. unfold results_page.
  destruct (questions s); simpl; [|discriminate].
  destruct (real_answer_key s); simpl; [|discriminate].
  case_bool_decide as Hclick; intros [= <-].
  - split; [by right|]. split; [reflexivity|contradiction].
  - split; [by left|]. split; [contradiction|reflexivity].
Qed.

Lemma submitted_session_is_frozen_witness :
  run (idle_with "B") (set_exam_submitted first_answered)
  = Ok (set_exam_submitted first_answered)
  /\ run (press TakeAnother) (set_exam_submitted first_answered) = Ok fresh.
Proof.
  split.
  - destruct (submitted_session_is_frozen (set_exam_submitted first_answered)
                (set_exam_submitted first_answered) (idle_with "B")
                eq_refl eq_refl eq_refl) as (_ & _ & Hsame).
    reflexivity.
  - destruct (submitted_session_is_frozen (set_exam_submitted first_answered)
                fresh (press TakeAnother) eq_refl eq_refl eq_refl)
      as (_ & Hreset & _).
    reflexivity.
Defined.

(** X6. A test is submitted only by the submit button, and only from its
    last question: the run that submits it saw "Submit Exam" pressed while
    the current question was the last one of the paper. *)
Theorem submit_only_on_last_question (s s' : session) (w : widgets) :
  reachable s -> exam_submitted s = false -> run w s = Ok s' ->
  exam_submitted s' = true ->
  clicked w = SubmitExam /\ exam_started s = true
  /\ exists qs, questions s = Some qs
                /\ current_question s = Z.of_nat (length qs) - 1.
Proof.
  intros Hr Hsub Hrun Hsub'.
  pose proof (reachable_well_formed s Hr) as Hwf. unfold run in Hrun.
  destruct (sidebar_start w s) as [s1|] eqn:Hside.
  { injection Hrun as <-.
    apply sidebar_start_inv in Hside as (_ & pdf & key & _ & _ & _ & ->).
    simpl in Hsub'. congruence. }
  unfold main_page in Hrun. rewrite Hsub in Hrun.
  destruct (exam_started s) eqn:Hst; simpl in Hrun;
    [|injection Hrun as <-; congruence].
  destruct (well_formed_started s Hst Hwf)
    as (qs' & _ & _ & Hq & _ & _ & Hidx & _).
  apply exam_taking_inv in Hrun as (qs & Hqs & Hcases).
  rewrite Hqs in Hq. injection Hq as <-.
  pose proof (record_answer_fields (current_question s) (radio_answer w) s)
    as (_ & _ & Hsb & _).
  cbv zeta in Hcases.
  destruct Hcases as [(-> & _)|[(-> & _)|[(-> & Hlast & Hclick)| ->]]];
    simpl in Hsub'; try (rewrite Hsb in Hsub'; congruence).
  split; [assumption|]. split; [reflexivity|]. exists qs. split; [assumption|lia].
Qed.

Lemma on_last_question_reachable : reachable on_last_question.
Proof.
  apply reach_step with first_answered; [apply first_answered_reachable|].
  exists (press Next). split; [apply list_elem_of_here|by vm_compute].
Qed.

Lemma submit_only_on_last_question_witness :
  exists qs, questions on_last_question = Some qs
             /\ current_question on_last_question = Z.of_nat (length qs) - 1.
Proof.
  exact (proj2 (proj2 (submit_only_on_last_question on_last_question
           (set_exam_submitted on_last_question) (press SubmitExam)
           on_last_question_reachable eq_refl eq_refl eq_refl))).
Defined.

(** ** Scoring a session *)

Lemma unanswered_below_ext (m m' : gmap Z string) n :
  (forall i, 0 <= i < Z.of_nat n -> m !! i = m' !! i) ->
  unanswered_below m n = unanswered_below m' n.
Proof.
  induction n as [|n IH]; intros Hext; [reflexivity|].
  cbn [unanswered_below]. rewrite IH by (intros i Hi; apply Hext; lia).
  rewrite (Hext (Z.of_nat n)) by lia. reflexivity.
Qed.

Lemma size_plus_unanswered n : forall m : gmap Z string,
  (forall i v, m !! i = Some v -> 0 <= i < Z.of_nat n) ->
  Z.of_nat (size m) + unanswered_below m n = Z.of_nat n.
Proof.
  induction n as [|n IH]; intros m Hkeys.
  - assert (m = ∅) as ->.
    { apply map_empty. intros i. destruct (m !! i) eqn:Hi; [|reflexivity].
      apply Hkeys in Hi. simpl in Hi. lia. }
    by rewrite map_size_empty.
  - cbn [unanswered_below].
    assert (forall i v, delete (Z.of_nat n) m !! i = Some v ->
                        0 <= i < Z.of_nat n) as Hkeys'.
    { intros i v Hi. apply lookup_delete_Some in Hi as [Hne Hi].
      apply Hkeys in Hi. lia. }
    specialize (IH _ Hkeys').
    rewrite (unanswered_below_ext (delete (Z.of_nat n) m) m) in IH
      by (intros i Hi; apply lookup_delete_ne; lia).
    rewrite map_size_delete in IH.
    destruct (m !! Z.of_nat n) as [v|] eqn:Hn.
    + rewrite bool_decide_eq_false_2 by discriminate.
      assert (size m ≠ 0%nat) as Hsz.
      { intros Hz. apply map_size_empty_inv in Hz. subst m.
        by rewrite lookup_empty in Hn. }
      unfold indicator. simpl in IH. lia.
    + rewrite bool_decide_eq_true_2 by reflexivity.
      unfold indicator. simpl in IH. lia.
Qed.

Lemma count_unattempted_rows (m : gmap Z string) key n :
  letters_only m ->
  count_status "Unattempted" (map (spec_row m key) (seq 0 n))
  = unanswered_below m n.
Proof.
  intros Hlet. induction n as [|n IH]; [reflexivity|].
  rewrite seq_S, map_app, count_status_app, IH. cbn [unanswered_below].
  f_equal. simpl. rewrite count_status_row.
  pose proof (spec_row_unattempted_iff m key n unattempted_not_letter Hlet)
    as Hiff. unfold spec_row in Hiff. simpl in Hiff.
  repeat case_bool_decide; try reflexivity; tauto.
Qed.

(** X7. When a session the script reaches is scored against its paper, the
    unattempted count is the number of questions minus the number of
    recorded answers, whatever the key: every recorded answer belongs to a
    question of the paper and takes it out of the unattempted ones. *)
Theorem unattempted_count_is_unanswered (s : session) (qs : list string)
    (key : gmap pykey string) :
  reachable s -> questions s = Some qs ->
  unattempted_count (score_loop qs (answers s) key)
  = Z.of_nat (length qs) - Z.of_nat (size (answers s)).
Proof.
  intros Hr Hq.
  pose proof (reachable_well_formed s Hr) as Hwf.
  assert (exam_started s = true) as Hst.
  { destruct (exam_started s) eqn:Hst; [reflexivity|].
    unfold well_formed in Hwf. rewrite Hst in Hwf. subst s. discriminate Hq. }
  destruct (well_formed_started s Hst Hwf)
    as (qs' & _ & _ & Hq' & _ & _ & _ & Hkeys).
  rewrite Hq in Hq'. injection Hq' as <-.
  destruct (score_loop_spec qs (answers s) key) as (_ & _ & _ & ->).
  rewrite count_unattempted_rows by (by apply reachable_letters).
  pose proof (size_plus_unanswered (length qs) (answers s) Hkeys). lia.
Qed.

Lemma unattempted_count_is_unanswered_witness :
  unattempted_count
    (score_loop ["1. first"; "2. second"]%string (answers first_answered) ∅)
  = Z.of_nat 2 - Z.of_nat (size (answers first_answered)).
Proof.
  exact (unattempted_count_is_unanswered first_answered
           ["1. first"; "2. second"]%string ∅ first_answered_reachable
           eq_refl).
Defined.

Lemma count_status_nonneg st rs : 0 <= count_status st rs.
Proof. unfold count_status. lia. Qed.

(** X8. With non-negative marks the final score lies between minus the
    number of questions times the negative marks and the number of
    questions times the positive marks. *)
Theorem final_score_bounds (questions : list string)
    (recorded : gmap Z string) (key : gmap pykey string)
    (positive_marks negative_marks : Z) :
  0 <= positive_marks -> 0 <= negative_marks ->
  let t := score_loop questions recorded key in
  - (Z.of_nat (length questions) * negative_marks)
    <= final_score t positive_marks negative_marks
    <= Z.of_nat (length questions) * positive_marks.
Proof.
  intros Hp Hn t. unfold final_score.
  destruct (score_loop_spec questions recorded key) as (_ & Hc & Hw & Hu).
  fold t in Hc, Hw, Hu.
  pose proof (count_status_rows_total recorded key
                (seq 0 (length questions))) as Htot.
  cbv zeta in Htot. rewrite length_seq in Htot.
  rewrite <- Hc, <- Hw, <- Hu in Htot.
  pose proof (count_status_nonneg "Key Missing"
    (map (spec_row recorded key) (seq 0 (length questions)))) as Hk.
  assert (0 <= correct_count t) by (rewrite Hc; apply count_status_nonneg).
  assert (0 <= wrong_count t) by (rewrite Hw; apply count_status_nonneg).
  assert (0 <= unattempted_count t) by (rewrite Hu; apply count_status_nonneg).
  split; nia.
Qed.

Lemma final_score_bounds_witness :
  - (Z.of_nat 3 * 1)
  <= final_score (score_loop ["q1"; "q2"; "q3"]%string
                    (<[0 := "A"%string]> ∅) (<[KInt 1 := "B"%string]> ∅)) 4 1
  <= Z.of_nat 3 * 4.
Proof.
  apply (final_score_bounds ["q1"; "q2"; "q3"]%string
           (<[0 := "A"%string]> ∅) (<[KInt 1 := "B"%string]> ∅) 4 1); lia.
Defined.

Lemma unanswered_below_empty n : unanswered_below ∅ n = Z.of_nat n.
Proof.
  induction n as [|n IH]; [reflexivity|].
  cbn [unanswered_below]. rewrite IH, lookup_empty.
  rewrite bool_decide_eq_true_2 by reflexivity. unfold indicator. lia.
Qed.

Lemma letters_only_empty : letters_only ∅.
Proof. intros i v H. by rewrite lookup_empty in H. Qed.

(** X9. A paper handed in blank: with no recorded answer every row is
    Unattempted, the unattempted count is the number of questions, nothing
    is correct or wrong, and the score is 0 whatever the key and marks. *)
Theorem blank_paper_scores_zero (questions : list string)
    (key : gmap pykey string) (positive_marks negative_marks : Z) :
  let t := score_loop questions ∅ key in
  Forall (fun r => status r = "Unattempted"%string) (results_data t)
  /\ unattempted_count t = Z.of_nat (length questions)
  /\ correct_count t = 0 /\ wrong_count t = 0
  /\ final_score t positive_marks negative_marks = 0.
Proof.
  intros t. unfold final_score.
  destruct (score_loop_spec questions ∅ key) as (Hr & Hc & Hw & Hu).
  fold t in Hr, Hc, Hw, Hu.
  pose proof (count_status_rows_total ∅ key (seq 0 (length questions)))
    as Htot. cbv zeta in Htot. rewrite length_seq in Htot.
  rewrite <- Hc, <- Hw, <- Hu in Htot.
  rewrite count_unattempted_rows, unanswered_below_empty in Hu
    by apply letters_only_empty.
  pose proof (count_status_nonneg "Key Missing"
    (map (spec_row ∅ key) (seq 0 (length questions)))) as Hk.
  assert (0 <= correct_count t) by (rewrite Hc; apply count_status_nonneg).
  assert (0 <= wrong_count t) by (rewrite Hw; apply count_status_nonneg).
  assert (correct_count t = 0) as Hc0 by lia.
  assert (wrong_count t = 0) as Hw0 by lia.
  rewrite Hc0, Hw0, Hr. repeat split; try assumption; try lia.
  apply Forall_forall. intros r Hin.
  apply list_elem_of_In, in_map_iff in Hin as (i & <- & _). reflexivity.
Qed.

Lemma neutral_without_key (recorded : gmap Z string) i :
  letters_only recorded ->
  classify (dict_get recorded (Z.of_nat i) "Unattempted"%string)
           (dict_get (∅ : gmap pykey string) (KInt (Z.of_nat i + 1))
                     "N/A"%string)
  ∈ [Unattempted; KeyMissing].
Proof.
  intros Hlet. unfold dict_get at 2. rewrite lookup_empty.
  unfold classify, dict_get.
  destruct (recorded !! Z.of_nat i) as [v|] eqn:Hv.
  - apply Hlet in Hv. unfold option_letters in Hv.
    repeat (apply elem_of_cons in Hv as [->|Hv];
            [apply list_elem_of_further, list_elem_of_here|]).
    by apply elem_of_nil in Hv.
  - apply list_elem_of_here.
Qed.

Lemma count_without_key (recorded : gmap Z string) (idxs : list nat) :
  letters_only recorded ->
  count_status "Correct" (map (spec_row recorded ∅) idxs) = 0
  /\ count_status "Wrong" (map (spec_row recorded ∅) idxs) = 0
  /\ Forall neutral_row (map (spec_row recorded ∅) idxs).
Proof.
  intros Hlet. induction idxs as [|i idxs (IHc & IHw & IHn)];
    [repeat split; constructor|].
  simpl.
  change (spec_row recorded ∅ i :: map (spec_row recorded ∅) idxs)
    with ([spec_row recorded ∅ i] ++ map (spec_row recorded ∅) idxs).
  rewrite !count_status_app, !count_status_row, IHc, IHw.
  pose proof (neutral_without_key recorded i Hlet) as Hv.
  assert (spec_row recorded ∅ i = spec_row recorded ∅ i) as _ by reflexivity.
  unfold neutral_row, spec_row. simpl.
  apply elem_of_cons in Hv as [Hv|Hv].
  - rewrite Hv. simpl. repeat split; try reflexivity.
    constructor; [|exact IHn]. simpl. split; [reflexivity|by left].
  - apply elem_of_cons in Hv as [Hv|Hv]; [|by apply elem_of_nil in Hv].
    rewrite Hv. simpl. repeat split; try reflexivity.
    constructor; [|exact IHn]. simpl. split; [reflexivity|by right].
Qed.

(** X10. When the key file could not be parsed (a diagnostic was shown), a
    session the script reaches scores 0: nothing is counted correct or
    wrong, and every row shows "N/A" as the correct answer with status
    Unattempted or Key Missing. *)
Theorem failed_key_scores_zero (s : session) (uploaded : res DataFrame)
    (e : exn) (qs : list string) (positive_marks negative_marks : Z) :
  reachable s -> (load_answer_key uploaded).2 = Some e ->
  let t := score_loop qs (answers s) (load_answer_key uploaded).1 in
  correct_count t = 0 /\ wrong_count t = 0
  /\ final_score t positive_marks negative_marks = 0
  /\ Forall neutral_row (results_data t).
Proof.
  intros Hr Herr.
  assert ((load_answer_key uploaded).1 = ∅) as ->.
  { unfold load_answer_key in *.
    destruct (try df <- uploaded; key_dict_of df); [discriminate|reflexivity]. }
  intros t. unfold final_score.
  destruct (score_loop_spec qs (answers s) ∅) as (Hrows & Hc & Hw & _).
  fold t in Hrows, Hc, Hw.
  destruct (count_without_key (answers s) (seq 0 (length qs))
              (reachable_letters s Hr)) as (Hc0 & Hw0 & Hn).
  rewrite Hc, Hw, Hc0, Hw0, Hrows. repeat split; try lia. exact Hn.
Qed.

Lemma failed_key_scores_zero_witness :
  final_score
    (score_loop ["1. first"; "2. second"]%string (answers first_answered)
       (load_answer_key (Raise ReadError)).1) 4 1 = 0.
Proof.
  exact (proj1 (proj2 (proj2 (failed_key_scores_zero first_answered
           (Raise ReadError) ReadError ["1. first"; "2. second"]%string 4 1
           first_answered_reachable eq_refl)))).
Defined.

Lemma highlighted_spec_row recorded key i :
  let v := classify (dict_get recorded (Z.of_nat i) "Unattempted"%string)
                    (dict_get key (KInt (Z.of_nat i + 1)) "N/A"%string) in
  indicator (highlighted (spec_row recorded key i))
  = indicator (bool_decide (v = Correct))
    + indicator (bool_decide (v = Wrong)).
Proof.
  unfold highlighted, spec_row. simpl. destruct (classify _ _); reflexivity.
Qed.

Lemma count_highlighted_rows recorded key (idxs : list nat) :
  let rs := map (spec_row recorded key) idxs in
  count_highlighted rs = count_status "Correct" rs + count_status "Wrong" rs.
Proof.
  induction idxs as [|i idxs IH]; [reflexivity|].
  cbv zeta in *. simpl.
  change (spec_row recorded key i :: map (spec_row recorded key) idxs)
    with ([spec_row recorded key i] ++ map (spec_row recorded key) idxs).
  rewrite !count_status_app, !count_status_row.
  pose proof (highlighted_spec_row recorded key i) as Hh. cbv zeta in Hh.
  rewrite <- (indicator_name _ Correct), <- (indicator_name _ Wrong) in Hh.
  simpl in Hh. unfold count_highlighted in *. simpl.
  destruct (highlighted (spec_row recorded key i)); simpl length;
    unfold indicator at 1 in Hh; lia.
Qed.

(** X11. The rows the result table highlights are exactly the ones that
    count: their number is correct_count + wrong_count; Unattempted and
    Key Missing rows get no style. *)
Theorem highlighted_rows_are_counted (questions : list string)
    (recorded : gmap Z string) (key : gmap pykey string) :
  let t := score_loop questions recorded key in
  count_highlighted (results_data t) = correct_count t + wrong_count t
  /\ color_status "Unattempted" = EmptyString
  /\ color_status "Key Missing" = EmptyString.
Proof.
  intros t.
  destruct (score_loop_spec questions recorded key) as (Hr & Hc & Hw & _).
  fold t in Hr, Hc, Hw. rewrite Hr, Hc, Hw.
  split; [apply count_highlighted_rows|split; reflexivity].
Qed.

(** ** Parsing the key, and scoring against it *)

Lemma last_row_is_Some (rows : list (Z * string)) n :
  is_Some (last_row n rows) <-> n ∈ rows.*1.
Proof.
  induction rows as [|[q a] rest IH]; simpl.
  - split; [intros [v Hv]; discriminate|intros H; by apply elem_of_nil in H].
  - rewrite elem_of_cons, <- IH. destruct (last_row n rest) as [v|].
    + split; [intros _; right|]; eauto.
    + destruct (decide (q = n)) as [->|Hne].
      * split; [by left|eauto].
      * split; [intros [v Hv]; discriminate|].
        intros [->|[v Hv]]; [congruence|discriminate].
Qed.

Lemma dict_of_pairs_size (pairs : list (pykey * string))
    (d : gmap pykey string) :
  (size (fold_left (fun d kv => <[kv.1 := kv.2]> d) pairs d)
   <= size d + length pairs)%nat.
Proof.
  revert d. induction pairs as [|[k v] rest IH]; intros d; simpl; [lia|].
  specialize (IH (<[k := v]> d)). rewrite map_size_insert in IH.
  destruct (d !! k); simpl in IH; lia.
Qed.

(** X12. For well-formed rows the parsed key has an entry for a question
    number exactly when some row carries that number, and it never has more
    entries than there are rows. *)
Theorem answer_key_domain (rows : list (Z * string)) (more : list Series) :
  let key := (load_answer_key (Ok (frame_of_rows rows more))).1 in
  (forall n : Z, is_Some (key !! KInt n) <-> n ∈ rows.*1)
  /\ (size key <= length rows)%nat.
Proof.
  intros key. subst key. rewrite load_answer_key_rows. cbn [fst].
  unfold dict_of_pairs. split.
  - intros n. rewrite dict_of_pairs_lookup, last_row_fmap, lookup_empty.
    rewrite <- last_row_is_Some.
    destruct (last_row n rows); simpl; split; intros [v Hv];
      eauto; discriminate.
  - pose proof (dict_of_pairs_size
      (map (fun r => (KInt r.1, normalise r.2)) rows) ∅) as H.
    by rewrite map_size_empty, length_map in H.
Qed.

(** X14. Parsing the key succeeds without a diagnostic exactly when the
    file could be read, has at least two columns and its second column is
    text; in every other case a diagnostic is shown and the key returned is
    empty. *)
Theorem answer_key_parse_outcome (uploaded : res DataFrame) :
  let parsed := load_answer_key uploaded in
  (parsed.2 = None <->
   exists df c0 cells,
     uploaded = Ok df /\ df !! 0%nat = Some c0
     /\ df !! 1%nat = Some (ObjCol cells))
  /\ (forall e, parsed.2 = Some e -> parsed.1 = ∅).
Proof.
  cbv zeta. unfold load_answer_key, key_dict_of, iloc_col.
  destruct uploaded as [df|e0]; simpl.
  - destruct (df !! 0%nat) as [c0|] eqn:H0; simpl.
    + destruct (df !! 1%nat) as [[cells|cells]|] eqn:H1; simpl.
      * split; [|reflexivity]. split; [discriminate|].
        intros (df' & c0' & cells' & [= <-] & _ & H1').
        rewrite H1 in H1'. discriminate.
      * split; [|discriminate]. split; [|reflexivity].
        intros _. by exists df, c0, cells.
      * split; [|reflexivity]. split; [discriminate|].
        intros (df' & c0' & cells' & [= <-] & _ & H1').
        rewrite H1 in H1'. discriminate.
    + split; [|reflexivity]. split; [discriminate|].
      intros (df' & c0' & cells' & [= <-] & H0' & _).
      rewrite H0 in H0'. discriminate.
  - split; [|reflexivity]. split; [discriminate|].
    intros (df' & c0' & cells' & Hd & _). discriminate.
Qed.

(** ** Trimming and extraction *)

Lemma lstrip_split s :
  exists pre, s = pre ++ lstrip s /\ forallb is_space pre = true.
Proof.
  induction s as [|d t (pre & IH & Hpre)]; simpl; [by exists []|].
  destruct (is_space d) eqn:Hd.
  - exists (d :: pre). simpl. rewrite Hd, Hpre. split; [|reflexivity].
    by rewrite <- IH.
  - by exists [].
Qed.

Lemma rstrip_split s :
  exists post, s = rstrip s ++ post /\ forallb is_space post = true.
Proof.
  unfold rstrip. destruct (lstrip_split (rev s)) as (pre & Hs & Hpre).
  exists (rev pre). split.
  - rewrite <- rev_app_distr, <- Hs. by rewrite rev_involutive.
  - by apply forallb_rev.
Qed.

(** X15. Trimming removes whitespace only, and all of it at both ends: a
    text is its trimmed form between a run of whitespace on the left and one
    on the right, and the trimmed form neither starts nor ends with
    whitespace. *)
Theorem strip_removes_only_whitespace (s : text) :
  exists l r,
    s = l ++ strip s ++ r
    /\ forallb is_space l = true /\ forallb is_space r = true
    /\ (forall c, head (strip s) = Some c \/ last (strip s) = Some c ->
                  is_space c = false).
Proof.
  destruct (rstrip_split s) as (r & Hr & Hrs).
  destruct (lstrip_split (rstrip s)) as (l & Hl & Hls).
  exists l, r. unfold strip. repeat split; try assumption.
  - rewrite app_assoc, <- Hl. exact Hr.
  - apply strip_trimmed.
Qed.

Lemma lstrip_app a b :
  lstrip (a ++ b) = match lstrip a with [] => lstrip b | _ => lstrip a ++ b end.
Proof.
  induction a as [|c t IH]; simpl; [by destruct (lstrip b)|].
  destruct (is_space c); [assumption|reflexivity].
Qed.

Lemma rstrip_app_nonspace x p y :
  is_space p = false -> rstrip (x ++ p :: y) = x ++ p :: rstrip y.
Proof.
  intros Hp. unfold rstrip. rewrite rev_app_distr. simpl.
  rewrite <- app_assoc. simpl. rewrite lstrip_app.
  destruct (lstrip (rev y)) as [|c t] eqn:Hy.
  - simpl. rewrite Hp. simpl. by rewrite rev_involutive.
  - rewrite rev_app_distr. simpl. rewrite rev_involutive.
    rewrite <- !app_assoc. reflexivity.
Qed.

Lemma digit_not_space c : is_digit c = true -> is_space c = false.
Proof.
  destruct c as [[] [] [] [] [] [] [] []]; try reflexivity; discriminate.
Qed.

Lemma dot_is_period c : is_dot c = true -> c = "."%char.
Proof.
  destruct c as [[] [] [] [] [] [] [] []]; try reflexivity; discriminate.
Qed.

Lemma span_digits_take s : forallb is_digit (take (span_digits s) s) = true.
Proof.
  induction s as [|c t IH]; simpl; [reflexivity|].
  destruct (is_digit c) eqn:Hc; simpl; [by rewrite Hc|reflexivity].
Qed.

(** What the boundary pattern matched: digits, a period, a whitespace. *)
Lemma marker_len_shape s ml :
  marker_len s = Some ml ->
  exists ds w r,
    s = ds ++ "."%char :: w :: r /\ ds <> []
    /\ forallb is_digit ds = true /\ is_space w = true
    /\ ml = (length ds + 2)%nat.
Proof.
  unfold marker_len. destruct (span_digits s) as [|d] eqn:Hd; [discriminate|].
  destruct (drop (S d) s) as [|p [|w r]] eqn:Hdrop; try discriminate.
  destruct (is_dot p) eqn:Hp; simpl; [|discriminate].
  destruct (is_space w) eqn:Hw; [|discriminate].
  intros [= <-]. exists (take (S d) s), w, r.
  pose proof (span_digits_le s) as Hle.
  apply dot_is_period in Hp. subst p.
  repeat split.
  - by rewrite <- Hdrop, take_drop.
  - intros Hnil. apply (f_equal length) in Hnil.
    rewrite length_take in Hnil. cbn [length] in Hnil. lia.
  - rewrite <- Hd. apply span_digits_take.
  - assumption.
  - rewrite length_take. lia.
Qed.

(** Every match of the whole pattern starts with what the boundary pattern
    matched. *)
Lemma findall_from_shape s : forall k,
  Forall (fun m => exists ds y, m = ds ++ "."%char :: y /\ ds <> []
                                /\ forallb is_digit ds = true)
         (findall_from k s).
Proof.
  induction s as [|c t IH]; intros k; [constructor|].
  cbn [findall_from]. destruct k as [|k]; [|apply IH].
  unfold match_at. destruct (marker_len (c :: t)) as [ml|] eqn:Hm; [|apply IH].
  constructor; [|apply IH].
  destruct (marker_len_shape _ _ Hm) as (ds & w & r & Hs & Hne & Hds & _ & Hml).
  assert (ml <= ml + lazy_body (drop ml (c :: t)))%nat as Hn by lia.
  revert Hn. generalize (ml + lazy_body (drop ml (c :: t)))%nat. intros n Hn.
  exists ds, (take (n - length ds - 1) (w :: r)).
  split; [|by split]. rewrite Hs.
  rewrite take_app_ge by lia.
  set (j := (n - length ds - 1)%nat).
  replace (n - length ds)%nat with (S j) by (subst j; lia).
  reflexivity.
Qed.

Lemma strip_numbered ds y :
  ds <> [] -> forallb is_digit ds = true ->
  strip (ds ++ "."%char :: y) = ds ++ "."%char :: rstrip y.
Proof.
  intros Hne Hds. unfold strip.
  rewrite rstrip_app_nonspace by reflexivity.
  destruct ds as [|d ds']; [congruence|]. simpl in *.
  apply andb_true_iff in Hds as [Hd _].
  by rewrite (digit_not_space d Hd).
Qed.

(** X16. When the paper has numbered questions, every extracted question
    begins with its number, one or more digits followed by a period, and is
    trimmed at both ends. *)
Theorem extracted_questions_are_numbered (txt : string) :
  (1 <= length (markers (list_ascii_of_string txt)))%nat ->
  Forall (fun q => numbered q /\ is_trimmed q)
         (extract_questions_from_text txt).
Proof.
  intros HN. rewrite extract_questions_eq.
  pose proof (findall_count (list_ascii_of_string txt)) as Hc.
  pose proof (findall_from_shape (list_ascii_of_string txt) 0) as Hshape.
  fold (findall (list_ascii_of_string txt)) in Hshape.
  destruct (findall (list_ascii_of_string txt)) as [|m ms] eqn:Hf;
    [simpl in Hc; lia|].
  rewrite map_map. apply Forall_forall. intros q Hq.
  apply list_elem_of_In, in_map_iff in Hq as (piece & <- & Hin).
  apply list_elem_of_In in Hin.
  rewrite Forall_forall in Hshape.
  destruct (Hshape piece Hin) as (ds & y & -> & Hne & Hds).
  split.
  - exists ds, (rstrip y).
    rewrite list_ascii_of_string_of_list_ascii.
    split; [by apply strip_numbered|by split].
  - unfold is_trimmed. rewrite list_ascii_of_string_of_list_ascii.
    apply strip_trimmed.
Qed.

Lemma extracted_questions_are_numbered_witness :
  Forall (fun q => numbered q /\ is_trimmed q)
         (extract_questions_from_text two_questions).
Proof.
  apply (extracted_questions_are_numbered two_questions).
  vm_compute. repeat constructor.
Defined.

Lemma findall_covers (n : nat) : forall s : text,
  (length s <= n)%nat -> is_Some (marker_len s) ->
  exists r, at_dollar r = true /\ List.concat (findall_from 0 s) ++ r = s.
Proof.
  induction n as [|n IH]; intros s Hlen [m Hm].
  { pose proof (marker_len_bounds _ _ Hm). lia. }
  pose proof (marker_len_bounds _ _ Hm) as Hb.
  rewrite (findall_from_marker _ _ Hm).
  set (k := (m + lazy_body (drop m s))%nat).
  assert (lookahead (drop k s) = true) as Hla.
  { subst k. rewrite <- drop_drop. apply lookahead_after_lazy. }
  unfold lookahead in Hla. simpl.
  destruct (marker_len (drop k s)) as [m'|] eqn:Hm'.
  - destruct (IH (drop k s)) as (r & Hr & Hcat).
    + rewrite length_drop. lia.
    + by exists m'.
    + exists r. split; [assumption|].
      rewrite <- app_assoc, Hcat. apply take_drop.
  - destruct (at_dollar_no_match _ Hla Hm') as [-> _].
    exists (drop k s). split; [assumption|]. simpl.
    rewrite app_nil_r. apply take_drop.
Qed.

Lemma first_marker s : forall pos p ps,
  markers_from 0 pos s = p :: ps ->
  exists j, p = (pos + j)%nat /\ is_Some (marker_len (drop j s))
            /\ findall_from 0 s = findall_from 0 (drop j s).
Proof.
  induction s as [|c t IH]; intros pos p ps; [discriminate|].
  cbn [markers_from]. destruct (marker_len (c :: t)) as [m|] eqn:Hm.
  - intros [= <- _]. exists 0%nat. simpl. rewrite Hm. split; [lia|eauto].
  - intros H. destruct (IH _ _ _ H) as (j & -> & Hj & Hf).
    exists (S j). simpl. unfold match_at. rewrite Hm. split; [lia|by split].
Qed.

(** X17. No text is lost after the first question number: what precedes
    the first occurrence of the boundary pattern, then the matches in order,
    then at most one final newline, make up the whole text again. *)
Theorem extraction_keeps_text (s : text) (p : nat) (ps : list nat) :
  markers s = p :: ps ->
  exists r, at_dollar r = true /\ take p s ++ List.concat (findall s) ++ r = s.
Proof.
  intros Hm. destruct (first_marker s 0 p ps Hm) as (j & -> & Hj & Hf).
  destruct (findall_covers (length (drop j s)) (drop j s) (le_n _) Hj)
    as (r & Hr & Hcat).
  exists r. split; [assumption|].
  unfold findall. rewrite Hf, Hcat. apply take_drop.
Qed.

Lemma extraction_keeps_text_witness :
  exists r,
    at_dollar r = true
    /\ take 6 (list_ascii_of_string "Paper 1. a 2. b")
       ++ List.concat (findall (list_ascii_of_string "Paper 1. a 2. b")) ++ r
       = list_ascii_of_string "Paper 1. a 2. b".
Proof.
  exact (extraction_keeps_text (list_ascii_of_string "Paper 1. a 2. b")
           6 [11%nat] eq_refl).
Defined.

(** ** History over several attempts *)


Section HistoryGrows.
Variable File : Type.
Variable to_csv : frame -> File.
Variable read_csv : File -> res frame.

(** Reading a file gives back the table that was written to it. *)
Hypothesis read_back : forall df, read_csv (to_csv df) = Ok df.




End HistoryGrows.



(** ** One run of the exam page *)

(** X20. A run of the exam page touches only the answer of the question on
    display: that entry becomes the radio value unless the radio shows
    "Unattempted", every other entry stays, so an answer once given can be
    replaced but not withdrawn; and the current question moves by at most
    one. *)
Theorem run_touches_only_current_answer (s s' : session) (w : widgets) :
  exam_started s = true -> exam_submitted s = false -> run w s = Ok s' ->
  answers s' = (if bool_decide (radio_answer w = "Unattempted"%string)
                then answers s
                else <[current_question s := radio_answer w]> (answers s))
  /\ (forall i, i ≠ current_question s -> answers s' !! i = answers s !! i)
  /\ (forall i, is_Some (answers s !! i) -> is_Some (answers s' !! i))
  /\ -1 <= current_question s' - current_question s <= 1.
Proof.
  intros Hst Hsub. unfold run.
  destruct (sidebar_start w s) as [s1|] eqn:Hside.
  { apply sidebar_start_inv in Hside as (Hns & _). congruence. }
  unfold main_page. rewrite Hst, Hsub. simpl. intros Hrun.
  apply exam_taking_inv in Hrun as (qs & _ & Hcases). cbv zeta in Hcases.
  pose proof (record_answer_answers (current_question s) (radio_answer w) s)
    as Hans.
  pose proof (record_answer_fields (current_question s) (radio_answer w) s)
    as (Hcur & _).
  assert (answers s' = answers (record_answer (current_question s)
                                  (radio_answer w) s)
          /\ -1 <= current_question s' - current_question s <= 1)
    as [Ha Hmove].
  { destruct Hcases as [(-> & _)|[(-> & _)|[(-> & _)| ->]]]; simpl;
      rewrite ?Hcur; split; try reflexivity; lia. }
  rewrite Ha, Hans. split; [reflexivity|]. split; [|split; [|exact Hmove]].
  - intros i Hi. case_bool_decide; [reflexivity|].
    by rewrite lookup_insert_ne.
  - intros i Hi. case_bool_decide; [assumption|].
    destruct (decide (current_question s = i)) as [<-|Hne].
    + rewrite lookup_insert_eq. eauto.
    + by rewrite lookup_insert_ne.
Qed.

Lemma run_touches_only_current_answer_witness :
  answers on_last_question
  = (if bool_decide (radio_answer (press Next) = "Unattempted"%string)
     then answers first_answered
     else <[current_question first_answered := radio_answer (press Next)]>
            (answers first_answered)).
Proof.
  exact (proj1 (run_touches_only_current_answer first_answered
           on_last_question (press Next) eq_refl eq_refl eq_refl)).
Defined.

(** ** The pattern and the normalisation, against their independent reading *)

Lemma is_digit_Digit c : is_digit c = true <-> Digit c.
Proof.
  unfold Digit.
  destruct c as [[] [] [] [] [] [] [] []]; vm_compute; split; intros H;
    try discriminate H; try reflexivity;
    try (repeat (apply elem_of_cons in H as [H|H]; [discriminate H|]);
         by apply elem_of_nil in H);
    repeat first [apply list_elem_of_here | apply list_elem_of_further].
Qed.

Lemma is_space_White c : is_space c = true <-> White c.
Proof.
  unfold White.
  destruct c as [[] [] [] [] [] [] [] []]; vm_compute; split; intros H;
    try discriminate H; try reflexivity;
    try (repeat (apply elem_of_cons in H as [H|H]; [discriminate H|]);
         by apply elem_of_nil in H);
    repeat first [apply list_elem_of_here | apply list_elem_of_further].
Qed.

Lemma upper_char_capital c : upper_char c = capital c.
Proof. destruct c as [[] [] [] [] [] [] [] []]; reflexivity. Qed.

Lemma forallb_Digit ds : forallb is_digit ds = true <-> Forall Digit ds.
Proof.
  induction ds as [|c t IH]; simpl; [split; [constructor|reflexivity]|].
  rewrite andb_true_iff, IH, is_digit_Digit.
  split; [intros [? ?]; by constructor|by inversion 1].
Qed.

Lemma forallb_White ws : forallb is_space ws = true <-> Forall White ws.
Proof.
  induction ws as [|c t IH]; simpl; [split; [constructor|reflexivity]|].
  rewrite andb_true_iff, IH, is_space_White.
  split; [intros [? ?]; by constructor|by inversion 1].
Qed.

Lemma span_digits_app ds x :
  forallb is_digit ds = true ->
  span_digits (ds ++ "."%char :: x) = length ds.
Proof.
  induction ds as [|c t IH]; simpl; [reflexivity|].
  intros H. apply andb_true_iff in H as [-> Ht]. by rewrite IH.
Qed.

Lemma marker_len_intro ds w rest :
  ds <> [] -> forallb is_digit ds = true -> is_space w = true ->
  marker_len (ds ++ "."%char :: w :: rest) = Some (length ds + 2)%nat.
Proof.
  intros Hne Hds Hw. unfold marker_len. rewrite span_digits_app by assumption.
  destruct ds as [|d ds']; [congruence|].
  rewrite drop_app_length. simpl. by rewrite Hw.
Qed.

(** The scanner's test at a position is the pattern's match there. *)
Lemma matches_at_marker_len s p n :
  matches_at s p n <-> marker_len (drop p s) = Some n.
Proof.
  split.
  - intros (ds & w & rest & -> & Hne & Hds & Hw & ->).
    apply marker_len_intro; [assumption| |].
    + by apply forallb_Digit.
    + by apply is_space_White.
  - intros Hm.
    destruct (marker_len_shape _ _ Hm) as (ds & w & r & Hs & Hne & Hds & Hw & Hn).
    exists ds, w, r. repeat split; try assumption.
    + by apply forallb_Digit.
    + by apply is_space_White.
Qed.

Lemma occurrences_skip s from ps :
  (forall n, ~ matches_at s from n) ->
  occurrences s (S from) ps -> occurrences s from ps.
Proof.
  intros Hno Hocc. inversion Hocc as [f Hnone|f p n ps' Hle Hm Hfirst Hrest];
    subst.
  - apply occ_none. intros p n Hp.
    destruct (decide (p = from)) as [->|Hne]; [apply Hno|apply Hnone; lia].
  - apply occ_next with n; [lia|assumption| |assumption].
    intros q m Hq.
    destruct (decide (q = from)) as [->|Hne]; [apply Hno|apply Hfirst; lia].
Qed.

(** The scan finds the occurrences. *)
Lemma markers_from_occurrences (full : text) : forall s k pos,
  drop pos full = s ->
  occurrences full (pos + k) (markers_from k pos s).
Proof.
  induction s as [|c t IH]; intros k pos Hdrop.
  - simpl. apply occ_none. intros p n Hp (ds & w & rest & Hd & Hne & _).
    assert (drop p full = []) as Hnil.
    { replace p with (pos + (p - pos))%nat by lia.
      by rewrite <- drop_drop, Hdrop, drop_nil. }
    rewrite Hnil in Hd. by destruct ds.
  - assert (drop (S pos) full = t) as Hdrop'.
    { replace (S pos) with (pos + 1)%nat by lia.
      by rewrite <- drop_drop, Hdrop. }
    cbn [markers_from]. destruct k as [|k].
    + rewrite Nat.add_0_r.
      destruct (marker_len (c :: t)) as [m|] eqn:Hm.
      * pose proof (marker_len_bounds _ _ Hm) as Hb.
        apply occ_next with m; [lia| | |].
        -- apply matches_at_marker_len. by rewrite Hdrop.
        -- intros q n Hq. lia.
        -- replace (pos + m)%nat with (S pos + (m - 1))%nat by lia.
           by apply IH.
      * apply occurrences_skip.
        -- intros n Hn. apply matches_at_marker_len in Hn.
           rewrite Hdrop in Hn. congruence.
        -- pose proof (IH 0%nat (S pos) Hdrop') as H0.
           by rewrite Nat.add_0_r in H0.
    + replace (pos + S k)%nat with (S pos + k)%nat by lia. by apply IH.
Qed.

(** The occurrences are determined by the text. *)
Lemma occurrences_unique s from ps :
  occurrences s from ps -> forall ps', occurrences s from ps' -> ps = ps'.
Proof.
  induction 1 as [from Hnone|from p n ps Hle Hm Hfirst Hrest IH];
    intros ps' Hocc;
    inversion Hocc as [f Hnone'|f p' n' ps'' Hle' Hm' Hfirst' Hrest']; subst.
  - reflexivity.
  - exfalso. by apply (Hnone p' n').
  - exfalso. by apply (Hnone' p n).
  - assert (p = p') as <-.
    { destruct (Nat.lt_trichotomy p p') as [Hlt|[Heq|Hgt]]; [|assumption|].
      - exfalso. apply (Hfirst' p n); [lia|assumption].
      - exfalso. apply (Hfirst p' n'); [lia|assumption]. }
    assert (n = n') as <-.
    { apply matches_at_marker_len in Hm, Hm'. congruence. }
    f_equal. by apply IH.
Qed.

Lemma occurrences_markers s ps : occurrences s 0 ps -> ps = markers s.
Proof.
  intros Hocc. apply (occurrences_unique s 0%nat ps Hocc).
  apply (markers_from_occurrences s s 0%nat 0%nat). reflexivity.
Qed.

Lemma occurrences_in_text s from ps :
  occurrences s from ps -> Forall (fun p => p < length s)%nat ps.
Proof.
  induction 1 as [|from p n ps Hle (ds & w & rest & Hd & Hne & _) Hfirst Hrest IH];
    constructor; [|assumption].
  destruct (decide (p < length s)%nat) as [|Hge]; [assumption|].
  rewrite drop_ge in Hd by lia. by destruct ds.
Qed.

Lemma cut_lookup (ps : list nat) s : forall k p,
  ps !! k = Some p ->
  cut ps s !! k = Some (sublist p (default (length s) (ps !! S k)) s).
Proof.
  induction ps as [|p0 rest IH]; intros k p Hk; [discriminate|].
  destruct k as [|k]; simpl in *.
  - injection Hk as ->. by destruct rest.
  - by apply IH.
Qed.

Lemma sorted_lookup_lt (ps : list nat) : StronglySorted lt ps ->
  forall k p q, ps !! k = Some p -> ps !! S k = Some q -> (p < q)%nat.
Proof.
  induction 1 as [|x rest Hs IH Hall]; intros k p q Hp Hq; [discriminate|].
  destruct k as [|k]; simpl in *.
  - injection Hp as <-. rewrite Forall_forall in Hall. apply Hall.
    eapply list_elem_of_lookup_2. exact Hq.
  - eapply IH; eassumption.
Qed.

Lemma strip_trimmed_of piece : trimmed_of piece (strip piece).
Proof.
  destruct (rstrip_split piece) as (r & Hr & Hrs).
  destruct (lstrip_split (rstrip piece)) as (l & Hl & Hls).
  exists l, r. unfold strip. repeat split.
  - rewrite app_assoc, <- Hl. exact Hr.
  - by apply forallb_White.
  - by apply forallb_White.
  - intros c Hc Hw. apply is_space_White in Hw.
    pose proof (strip_trimmed piece c Hc) as Hns. unfold strip in Hns.
    congruence.
Qed.

Lemma extract_questions_cut (txt : string) :
  (1 <= length (markers (list_ascii_of_string txt)))%nat ->
  extract_questions_from_text txt
  = map (fun piece => string_of_list_ascii (strip piece))
        (cut (markers (list_ascii_of_string txt)) (list_ascii_of_string txt)).
Proof.
  intros HN. rewrite extract_questions_eq.
  pose proof (findall_count (list_ascii_of_string txt)) as Hc.
  destruct (findall (list_ascii_of_string txt)) as [|m ms] eqn:Hf;
    [simpl in Hc; lia|].
  by rewrite <- Hf, findall_cut, map_map.
Qed.

Lemma split_at_positions (s : text) p q :
  (p <= q <= length s)%nat ->
  s = take p s ++ sublist p q s ++ drop q s
  /\ length (take p s) = p
  /\ length (take p s ++ sublist p q s) = q.
Proof.
  intros Hpq. unfold sublist. repeat split.
  - replace (drop q s) with (drop (q - p) (drop p s))
      by (rewrite drop_drop; f_equal; lia).
    by rewrite take_drop, take_drop.
  - rewrite length_take. lia.
  - rewrite length_app, !length_take, length_drop. lia.
Qed.

(** C5. When the boundary pattern (one or more digits, a period, a
    whitespace) occurs N >= 1 times in the text, extraction returns exactly
    N entries, in text order: entry k comes from the piece of text that
    starts at the k-th occurrence and ends just before the next one (at the
    end of the text for the last), newlines included, and is that piece
    without the whitespace at its two ends. *)
Theorem extraction_splits_at_markers (txt : string) (ps : list nat) :
  let s := list_ascii_of_string txt in
  occurrences s 0 ps -> (1 <= length ps)%nat ->
  length (extract_questions_from_text txt) = length ps
  /\ StronglySorted lt ps
  /\ (forall k p, ps !! k = Some p ->
        exists entry pre piece post,
          extract_questions_from_text txt !! k = Some entry
          /\ s = pre ++ piece ++ post
          /\ length pre = p
          /\ length (pre ++ piece) = default (length s) (ps !! S k)
          /\ trimmed_of piece (list_ascii_of_string entry)).
Proof.
  intros s Hocc HN.
  pose proof (occurrences_in_text s 0%nat ps Hocc) as Hin.
  apply occurrences_markers in Hocc. subst ps.
  pose proof (proj2 (markers_from_sorted s 0%nat 0%nat)) as Hsorted.
  fold (markers s) in Hsorted.
  rewrite (extract_questions_cut txt HN). fold s.
  split; [by rewrite length_map, length_cut|]. split; [exact Hsorted|].
  intros k p Hk.
  set (q := default (length s) (markers s !! S k)).
  assert (p <= q <= length s)%nat as Hpq.
  { rewrite Forall_forall in Hin.
    pose proof (Hin p (list_elem_of_lookup_2 _ _ _ Hk)) as Hp.
    subst q. destruct (markers s !! S k) as [q'|] eqn:Hq; simpl.
    - pose proof (sorted_lookup_lt _ Hsorted k p q' Hk Hq).
      pose proof (Hin q' (list_elem_of_lookup_2 _ _ _ Hq)). lia.
    - lia. }
  destruct (split_at_positions s p q Hpq) as (Hs & Hlp & Hlq).
  exists (string_of_list_ascii (strip (sublist p q s))),
         (take p s), (sublist p q s), (drop q s).
  split.
  { rewrite list_lookup_fmap, (cut_lookup _ _ k p Hk). reflexivity. }
  split; [exact Hs|]. split; [exact Hlp|]. split; [exact Hlq|].
  rewrite list_ascii_of_string_of_list_ascii. apply strip_trimmed_of.
Qed.

Lemma extraction_splits_at_markers_witness :
  length (extract_questions_from_text two_questions)
  = length (markers (list_ascii_of_string two_questions))
  /\ extract_questions_from_text two_questions
     = ["1. What is 2+2?
A. 3  B. 4"; "2. Next 12.5 one"]%string.
Proof.
  split.
  - apply (extraction_splits_at_markers two_questions
             (markers (list_ascii_of_string two_questions))).
    + apply (markers_from_occurrences (list_ascii_of_string two_questions)
               (list_ascii_of_string two_questions) 0%nat 0%nat).
      reflexivity.
    + vm_compute. repeat constructor.
  - reflexivity.
Defined.

Lemma rstrip_all_space s : forallb is_space s = true -> rstrip s = [].
Proof.
  intros H. unfold rstrip. by rewrite lstrip_all_space by by apply forallb_rev.
Qed.

(** What [trimmed_of] describes is one text, the one [strip] computes. *)
Lemma trimmed_of_unique piece t : trimmed_of piece t -> t = strip piece.
Proof.
  intros (l & r & -> & Hl & Hr & Ht).
  apply forallb_White in Hl, Hr.
  rewrite app_assoc, strip_app_space by assumption. unfold strip.
  destruct t as [|h t'] using rev_ind.
  - rewrite app_nil_r, rstrip_all_space by assumption. reflexivity.
  - clear IHt'.
    assert (is_space h = false) as Hh.
    { destruct (is_space h) eqn:Hsp; [|reflexivity].
      exfalso. apply (Ht h); [right; apply last_snoc|by apply is_space_White]. }
    rewrite app_assoc.
    replace ((l ++ t') ++ [h]) with ((l ++ t') ++ h :: []) by reflexivity.
    rewrite rstrip_app_nonspace by assumption.
    change (rstrip []) with (@nil ascii).
    rewrite <- app_assoc, lstrip_app, lstrip_all_space by assumption.
    destruct t' as [|c t'']; simpl; [by rewrite Hh|].
    assert (is_space c = false) as Hc.
    { destruct (is_space c) eqn:Hsp; [|reflexivity].
      exfalso. apply (Ht c); [left; reflexivity|by apply is_space_White]. }
    by rewrite Hc.
Qed.

Lemma normalise_normalised a : normalised_of a (normalise a).
Proof.
  unfold normalised_of. rewrite normalise_chars.
  replace (map capital (list_ascii_of_string a))
    with (upper (list_ascii_of_string a))
    by (unfold upper; apply map_ext; intros c; apply upper_char_capital).
  apply strip_trimmed_of.
Qed.

(** The normalised form is determined by the cell. *)
Lemma normalised_of_unique a v v' :
  normalised_of a v -> normalised_of a v' -> v = v'.
Proof.
  intros H H'. apply trimmed_of_unique in H, H'.
  rewrite <- (string_of_list_ascii_of_string v),
          <- (string_of_list_ascii_of_string v'). congruence.
Qed.

(** C7. For well-formed rows (question numbers in the first column, option
    strings in the second) parsing reports no error; the keys of the mapping
    are the integer question numbers, and the value under a number is the
    second-column string of the last row with that number, every letter
    replaced by its capital and the whitespace at its two ends removed; so
    every value is uppercase and trimmed. *)
Theorem answer_key_from_rows (rows : list (Z * string)) (more : list Series) :
  Forall (fun r => in_upper_domain r.2) rows ->
  let parsed := load_answer_key (Ok (frame_of_rows rows more)) in
  parsed.2 = None
  /\ (forall n : Z,
        match last_row n rows with
        | Some a => exists v, parsed.1 !! KInt n = Some v /\ normalised_of a v
        | None => parsed.1 !! KInt n = None
        end)
  /\ (forall n : Z, parsed.1 !! KInt n = normalise <$> last_row n rows)
  /\ (forall t : string, parsed.1 !! KStr t = None)
  /\ (forall k v, parsed.1 !! k = Some v ->
        is_upper v /\ is_trimmed v
        /\ exists n a, k = KInt n /\ (n, a) ∈ rows
                       /\ last_row n rows = Some a
                       /\ normalised_of a v
                       /\ v = str_strip (str_upper a)).
Proof.
  intros _ parsed. subst parsed. rewrite load_answer_key_rows. cbn [fst snd].
  unfold dict_of_pairs.
  assert (forall n : Z,
    fold_left (fun d kv => <[kv.1 := kv.2]> d)
      (map (fun r => (KInt r.1, normalise r.2)) rows) (∅ : gmap pykey string)
      !! KInt n = normalise <$> last_row n rows) as Hint.
  { intros n. rewrite dict_of_pairs_lookup, last_row_fmap, lookup_empty.
    by destruct (last_row n rows). }
  assert (forall t : string,
    fold_left (fun d kv => <[kv.1 := kv.2]> d)
      (map (fun r => (KInt r.1, normalise r.2)) rows) (∅ : gmap pykey string)
      !! KStr t = None) as Hstr.
  { intros t. by rewrite dict_of_pairs_lookup, last_row_fmap_str. }
  split; [reflexivity|]. split.
  { intros n. rewrite Hint. destruct (last_row n rows) as [a|]; simpl;
      [|reflexivity].
    exists (normalise a). split; [reflexivity|apply normalise_normalised]. }
  split; [exact Hint|]. split; [exact Hstr|].
  intros [n|t] v Hlk; [|by rewrite Hstr in Hlk].
  rewrite Hint in Hlk. destruct (last_row n rows) as [a|] eqn:Hlast;
    [|discriminate]. injection Hlk as <-.
  split; [apply normalise_upper|]. split; [apply normalise_trimmed|].
  exists n, a. split; [reflexivity|]. split; [by apply last_row_elem|].
  split; [exact Hlast|]. split; [apply normalise_normalised|reflexivity].
Qed.

Lemma answer_key_from_rows_witness :
  exists v,
    (load_answer_key
       (Ok (frame_of_rows [(1, " a"); (2, "b "); (1, "c")]%string []))).1
      !! KInt 1 = Some v
    /\ normalised_of "c" v.
Proof.
  destruct (answer_key_from_rows [(1, " a"); (2, "b "); (1, "c")]%string [])
    as (_ & Hval & _).
  - repeat constructor.
  - exact (Hval 1).
Defined.

(** X13. An answered question is marked against the normalised key value:
    when the last key row for question i+1 holds [a], the row shows [a] with
    its letters capitalised and the whitespace at its ends removed as the
    correct answer, and the status is Correct if that equals the recorded
    answer, Key Missing if it reads "N/A", and Wrong otherwise. *)
Theorem answered_question_verdict (rows : list (Z * string))
    (more : list Series) (recorded : gmap Z string) (qs : list string)
    (i : nat) (u a : string) :
  (i < length qs)%nat ->
  recorded !! Z.of_nat i = Some u -> u ≠ "Unattempted"%string ->
  last_row (Z.of_nat i + 1) rows = Some a ->
  in_upper_domain a ->
  exists v,
    normalised_of a v
    /\ results_data
         (score_loop qs recorded
            (load_answer_key (Ok (frame_of_rows rows more))).1) !! i
       = Some {| q_no := Z.of_nat i + 1; your_answer := u;
                 correct_answer := v;
                 status := if bool_decide (v = u) then "Correct"
                           else if bool_decide (v = "N/A"%string)
                                then "Key Missing" else "Wrong" |}.
Proof.
  intros Hi Hu Hne Ha _. exists (normalise a).
  split; [apply normalise_normalised|].
  rewrite load_answer_key_rows. cbn [fst].
  set (key := dict_of_pairs (map (fun r => (KInt r.1, normalise r.2)) rows)).
  assert (key !! KInt (Z.of_nat i + 1) = Some (normalise a)) as Hk.
  { subst key. unfold dict_of_pairs.
    by rewrite dict_of_pairs_lookup, last_row_fmap, Ha. }
  destruct (score_loop_spec qs recorded key) as (-> & _).
  rewrite list_lookup_fmap, lookup_seq_lt by assumption. simpl. f_equal.
  unfold spec_row, classify, dict_get. rewrite Hu, Hk.
  rewrite (bool_decide_eq_false_2 _ Hne).
  repeat case_bool_decide; try reflexivity; congruence.
Qed.

Lemma answered_question_verdict_witness :
  exists v,
    normalised_of " a " v
    /\ results_data
         (score_loop ["1. first"]%string (<[0 := "A"%string]> ∅)
            (load_answer_key (Ok (frame_of_rows [(1, " a ")]%string []))).1)
         !! 0%nat
       = Some {| q_no := Z.of_nat 0 + 1; your_answer := "A";
                 correct_answer := v;
                 status := if bool_decide (v = "A"%string) then "Correct"
                           else if bool_decide (v = "N/A"%string)
                                then "Key Missing" else "Wrong" |}.
Proof.
  apply (answered_question_verdict [(1, " a ")]%string []
           (<[0 := "A"%string]> ∅) ["1. first"]%string 0 "A" " a ").
  - simpl. lia.
  - reflexivity.
  - discriminate.
  - reflexivity.
  - reflexivity.
Defined.

(** ** The history file as pandas reads it *)


(** ** A whole run of the script *)

Section ScriptCompletes.
Variable File : Type.
Variable to_csv : frame -> File.
Variable read_csv : File -> res frame.


End ScriptCompletes.

